(** * node-logger: the log record pipeline of [NodeLogger] and [GelfStream]

    A shallow embedding of [src/lib/logger/logger.ts] (class [NodeLogger]) and
    [src/lib/logger/stream/gelf.stream.ts] (class [GelfStream]).

    JavaScript values are a small inductive type, property reads can throw a
    [TypeError], and the calls a hook makes on its collaborators (the logging
    engine's [info], the response's [setHeader], the framework's [next], the
    GELF client's [emit]) are recorded in a trace.  What the sources call and
    do not hold (the engine's constructor and setter, the transform of the
    streams, [JSON.stringify], the timer, the identifier drawn) is a variable
    of the section that uses it. *)

From Stdlib Require Import String Ascii Bool ZArith Arith Lia List.
From Stdlib Require Import Numbers.DecimalString.
From Equations Require Import Equations.
Import ListNotations.

Local Open Scope list_scope.

(* ===================================================================== *)
(** ** Cookie redaction: the two regular expressions of the source        *)
(* ===================================================================== *)

(** Header values reach a Node process decoded as latin-1, one byte per code
    unit, so a cookie is a list of [ascii].  In that range the line
    terminators, which [.] refuses to match, are LF and CR. *)

Module Cookie.

Definition chars := list ascii.

Definition LF : ascii := ascii_of_nat 10.
Definition CR : ascii := ascii_of_nat 13.
Definition SEMI : ascii := ";"%char.
Definition STAR : ascii := "*"%char.

Definition is_lt (c : ascii) : bool := Ascii.eqb c LF || Ascii.eqb c CR.

(** [HEADER_REPLACE_PATTERN = '$1***$2']: the text between the two groups. *)
Definition MASK : chars := [STAR; STAR; STAR].

(** The literal group [(sid=)] or [(rm=)] at the head of the subject. *)
Fixpoint strip_prefix (p s : chars) : option chars :=
  match p with
  | [] => Some s
  | x :: p' =>
      match s with
      | [] => None
      | y :: s' => if Ascii.eqb x y then strip_prefix p' s' else None
      end
  end.

(** [.+?(;|$)] once the first [.] is consumed: the lazy quantifier stops at
    the first [;], or at the end of the input ([$] without the [m] flag), and
    fails on a line terminator, which [.] cannot cross.  The result is the
    text of group 2 and what follows the match. *)
Fixpoint match_tail (s : chars) : option (chars * chars) :=
  match s with
  | [] => Some ([], [])
  | c :: r =>
      if Ascii.eqb c SEMI then Some ([SEMI], r)
      else if is_lt c then None
      else match_tail r
  end.

(** [.+?(;|$)]: at least one character that is not a line terminator. *)
Definition match_body (s : chars) : option (chars * chars) :=
  match s with
  | [] => None
  | c :: r => if is_lt c then None else match_tail r
  end.

(** One attempt of [/(p).+?(;|$)/] anchored at the head of [s]. *)
Definition match_at (p s : chars) : option (chars * chars) :=
  match strip_prefix p s with
  | Some w => match_body w
  | None => None
  end.

Lemma strip_prefix_length (p s w : chars) :
  strip_prefix p s = Some w -> length w <= length s.
Proof.
  revert s; induction p as [|x p IH]; intros s H; simpl in H.
  - injection H as <-. apply le_n.
  - destruct s as [|y s]; [discriminate|].
    destruct (Ascii.eqb x y); [|discriminate].
    simpl. apply le_S, IH, H.
Defined.

Lemma match_tail_length (s t rest : chars) :
  match_tail s = Some (t, rest) -> length rest <= length s.
Proof.
  revert t rest; induction s as [|c r IH]; intros t rest H; simpl in H.
  - injection H as <- <-. apply le_n.
  - destruct (Ascii.eqb c SEMI).
    + injection H as <- <-. simpl. apply le_S, le_n.
    + destruct (is_lt c); [discriminate|].
      simpl. apply le_S. eapply IH, H.
Defined.

Lemma match_at_shorter (p s t rest : chars) :
  match_at p s = Some (t, rest) -> length rest < length s.
Proof.
  unfold match_at. intros H.
  destruct (strip_prefix p s) as [w|] eqn:E; [|discriminate].
  apply strip_prefix_length in E.
  destruct w as [|c r]; [discriminate|]. simpl in H.
  destruct (is_lt c); [discriminate|].
  apply match_tail_length in H. simpl in E.
  eapply Nat.lt_le_trans; [|exact E].
  apply Nat.lt_succ_r, H.
Defined.

Definition inspect {A : Type} (a : A) : { b : A | a = b } := exist _ a eq_refl.

(** [String.prototype.replace] with a global regular expression
    [/(p).+?(;|$)/g] and the replacement ['$1***$2']: the subject is scanned
    from the left; a match is replaced by group 1, the mask and group 2, and
    the scan resumes after it; a position with no match is copied. *)
Equations? replace_all (p s : chars) : chars by wf (length s) lt :=
  replace_all p [] := [];
  replace_all p (c :: r) with inspect (match_at p (c :: r)) => {
    | exist _ (Some (t, rest)) e := p ++ MASK ++ t ++ replace_all p rest;
    | exist _ None _ := c :: replace_all p r }.
Proof.
  apply (match_at_shorter _ _ _ _ e).
Defined.

Definition of_string (s : string) : chars := list_ascii_of_string s.
Definition to_string (s : chars) : string := string_of_list_ascii s.

(** [HEADER_SID_REGEX = /(sid=).+?(;|$)/g], [HEADER_RM_REGEX = /(rm=).+?(;|$)/g]. *)
Definition SID : chars := of_string "sid=".
Definition RM : chars := of_string "rm=".

(** [cookie.replace(HEADER_SID_REGEX, ...).replace(HEADER_RM_REGEX, ...)]. *)
Definition redact (s : chars) : chars := replace_all RM (replace_all SID s).

Definition redact_cookie (s : string) : string := to_string (redact (of_string s)).

(** *** The claim's reading of the redactor, on a cookie as a list of pairs *)

Definition EQ : ascii := "="%char.
Definition SPACE : ascii := " "%char.

Definition render_pair (kv : string * string) : chars :=
  of_string (fst kv) ++ EQ :: of_string (snd kv).

(** A [Cookie] header: the pairs [k=v] joined by a semicolon and a space. *)
Fixpoint render (l : list (string * string)) : chars :=
  match l with
  | [] => []
  | kv :: rest =>
      match rest with
      | [] => render_pair kv
      | _ :: _ => render_pair kv ++ SEMI :: SPACE :: render rest
      end
  end.

Definition render_cookie (l : list (string * string)) : string := to_string (render l).

(** Mask the value of one key and keep every other pair. *)
Definition mask_key (k0 : string) (kv : string * string) : string * string :=
  if String.eqb (fst kv) k0 then (fst kv, to_string MASK) else kv.

(** What the specification asks of the redactor: the values bound to [sid]
    and [rm] replaced by the mask, every other pair verbatim. *)
Definition mask_pair (kv : string * string) : string * string :=
  if String.eqb (fst kv) "sid" || String.eqb (fst kv) "rm"
  then (fst kv, to_string MASK) else kv.

Definition redact_spec (l : list (string * string)) : string :=
  render_cookie (map mask_pair l).

(** [p] occurs in [s] as a substring. *)
Definition starts (p s : chars) : bool :=
  match strip_prefix p s with Some _ => true | None => false end.

Fixpoint occurs (p s : chars) : bool :=
  starts p s || match s with [] => false | _ :: r => occurs p r end.

(** A value the regular expression takes whole: not empty, no [;] and no
    line terminator in it. *)
Definition value_ok (v : string) : bool :=
  match of_string v with
  | [] => false
  | l => forallb (fun c => negb (is_lt c) && negb (Ascii.eqb c SEMI)) l
  end.

(** The cookies on which the redactor does what the specification asks:
    [sid] and [rm] carry a value the expression takes whole, and the text
    [sid=] or [rm=] occurs nowhere else (not at the end of a longer name such
    as [term=], nor inside a value that is not masked anyway). *)
Definition pair_ok (kv : string * string) : bool :=
  if String.eqb (fst kv) "sid" then value_ok (snd kv)
  else if String.eqb (fst kv) "rm"
       then value_ok (snd kv) && negb (occurs SID (render_pair kv))
       else negb (occurs SID (render_pair kv)) && negb (occurs RM (render_pair kv)).

Definition cookie_ok (l : list (string * string)) : bool := forallb pair_ok l.

End Cookie.

(* ===================================================================== *)
(** ** JavaScript values, property reads and effects                      *)
(* ===================================================================== *)

Module JS.

Local Open Scope string_scope.
Local Open Scope list_scope.
Local Set Warnings "-register-all".

(** Classes whose instances the source creates or receives. *)
Inductive cls : Type :=
| CNodeLogger     (* arguments: the [_settings] it keeps, the state the
                     engine's constructor built for it *)
| CMapperStream   (* arguments: meta, settings *)
| CTrimStream     (* arguments: meta, settings *)
| CBaseStream     (* arguments: meta *)
| CMeta.          (* the object of [_createMeta] *)

(** Numbers are integers here: the source computes with none but the
    constants 70, 200 and 400 and the length of [streams]. *)
Inductive value : Type :=
| VUndefined
| VNull
| VBool (b : bool)
| VNum (n : Z)
| VStr (s : string)
| VObj (fields : list (string * value))   (* own properties, in insertion order *)
| VArr (items : list value)
| VFun (src : string)                      (* a function, known by its text *)
| VInst (c : cls) (args : list value).     (* an instance and what built it *)

(** What a computation can stop on.  [TypeError] is JavaScript's.
    [Unmodelled] is no error of the program: the computation has reached a
    conversion this model does not have (a string that is no decimal numeral,
    or an object, turned into a number), and nothing is said of what the
    program does from there. *)
Inductive exn : Type := TypeError | Unmodelled.

Inductive outcome (A : Type) : Type :=
| Ret (a : A)
| Threw (e : exn).
Arguments Ret {A} a.
Arguments Threw {A} e.

(** What a call leaves behind on its collaborators. *)
Inductive event : Type :=
| EInfo (this fields msg : value)        (* [this.info(fields, msg)] on the engine *)
| ESetHeader (name : string) (v : value) (* [res.setHeader(name, v)] *)
| ENext (err : option value)             (* [next()] or [next(err)] *)
| EEmit (evt : string) (msg : value).    (* [gelf.emit(evt, msg)] *)

(** A computation: the events so far, and a result or a thrown error. *)
Definition M (A : Type) : Type := list event * outcome A.

Definition ret {A : Type} (a : A) : M A := ([], Ret a).
Definition throw {A : Type} (e : exn) : M A := ([], Threw e).
Definition emit (e : event) : M unit := ([e], Ret tt).

(** A call that leaves no event: its result or its error. *)
Definition lift {A : Type} (o : outcome A) : M A := ([], o).

Definition bind {A B : Type} (m : M A) (k : A -> M B) : M B :=
  match m with
  | (t, Ret a) => let (t', o) := k a in (t ++ t', o)
  | (t, Threw e) => (t, Threw e)
  end.

Notation "x <- m ;; k" := (bind m (fun x => k))
  (at level 61, m at next level, right associativity).
Notation "m ;; k" := (bind m (fun _ => k))
  (at level 61, right associativity).

Definition trace {A : Type} (m : M A) : list event := fst m.
Definition result {A : Type} (m : M A) : outcome A := snd m.

(** [ToBoolean]. *)
Definition truthy (v : value) : bool :=
  match v with
  | VUndefined | VNull => false
  | VBool b => b
  | VNum n => negb (n =? 0)%Z
  | VStr s => negb (String.eqb s "")
  | _ => true
  end.

(** [typeof v === 'string']. *)
Definition is_string (v : value) : bool :=
  match v with VStr _ => true | _ => false end.

(** [v !== null]. *)
Definition is_null (v : value) : bool :=
  match v with VNull => true | _ => false end.

(** [Array.isArray]. *)
Definition isArray (v : value) : bool :=
  match v with VArr _ => true | _ => false end.

Definition nat_str (n : nat) : string := NilZero.string_of_uint (Nat.to_uint n).
Definition int_str (n : Z) : string := NilZero.string_of_int (Z.to_int n).

Fixpoint lookup (k : string) (kvs : list (string * value)) : option value :=
  match kvs with
  | [] => None
  | (k', v) :: rest => if String.eqb k k' then Some v else lookup k rest
  end.

(** The element whose index is written [k], counting from [i]. *)
Fixpoint at_index {A : Type} (k : string) (i : nat) (l : list A) : option A :=
  match l with
  | [] => None
  | x :: rest => if String.eqb k (nat_str i) then Some x else at_index k (S i) rest
  end.

Definition or_undefined (o : option value) : value :=
  match o with Some v => v | None => VUndefined end.

Definition string_chars (s : string) : list value :=
  map (fun c => VStr (String c EmptyString)) (list_ascii_of_string s).

(** [v[k]] and [v.k]: a [TypeError] on [undefined] and [null]; own
    properties of an object; the length and the elements of an array or a
    string.  What a prototype gives (methods, the [name] and [length] of a
    function) is no property of this model.  Neither are the fields of a
    class instance: where the source reads the properties of a logger (the
    constructor, handed a parent by [child]), the model reads them from the
    engine's account of that logger, not through [get]. *)
Definition get (v : value) (k : string) : M value :=
  match v with
  | VUndefined | VNull => throw TypeError
  | VObj kvs => ret (or_undefined (lookup k kvs))
  | VArr l =>
      if String.eqb k "length" then ret (VNum (Z.of_nat (List.length l)))
      else ret (or_undefined (at_index k 0 l))
  | VStr s =>
      if String.eqb k "length" then ret (VNum (Z.of_nat (String.length s)))
      else ret (or_undefined (at_index k 0 (string_chars s)))
  | _ => ret VUndefined
  end.

(** [kvs[k] = v]: an existing property keeps its place. *)
Fixpoint obj_set (kvs : list (string * value)) (k : string) (v : value)
  : list (string * value) :=
  match kvs with
  | [] => [(k, v)]
  | (k', v') :: rest =>
      if String.eqb k k' then (k', v) :: rest else (k', v') :: obj_set rest k v
  end.

(** [o.k = v] in strict mode, for the objects the source assigns to. *)
Definition set (o : value) (k : string) (v : value) : M value :=
  match o with
  | VObj kvs => ret (VObj (obj_set kvs k v))
  | _ => throw TypeError
  end.

Fixpoint indexed {A : Type} (i : nat) (l : list A) : list (string * A) :=
  match l with
  | [] => []
  | x :: rest => (nat_str i, x) :: indexed (S i) rest
  end.

(** The own enumerable properties that [{ ...v }] and [Object.assign] copy. *)
Definition own_props (v : value) : list (string * value) :=
  match v with
  | VObj kvs => kvs
  | VArr l => indexed 0 l
  | VStr s => indexed 0 (string_chars s)
  | _ => []
  end.

(** [{ ...v }]. *)
Definition spread (v : value) : value :=
  VObj (fold_left (fun acc kv => obj_set acc (fst kv) (snd kv)) (own_props v) []).

(** [Object.assign(target, source)]. *)
Definition assign (target source : value) : value :=
  match target with
  | VObj kvs =>
      VObj (fold_left (fun acc kv => obj_set acc (fst kv) (snd kv)) (own_props source) kvs)
  | _ => target
  end.

Fixpoint join (sep : string) (l : list string) : string :=
  match l with
  | [] => ""
  | [x] => x
  | x :: rest => String.append x (String.append sep (join sep rest))
  end.

(** [ToString], as a computed property name and a template literal apply it.
    A number is written in decimal, which is JavaScript's text for the
    integers it holds exactly (below 2^53 in size); beyond them JavaScript
    rounds, and from 1e21 on it writes an exponent, so there this text is not
    the engine's.  Objects print as [Object.prototype.toString] prints them,
    which is JavaScript's text for an object without a [toString] of its own.
    [plain_text] below is the domain on which this function is [ToString]. *)
Fixpoint to_str (v : value) : string :=
  match v with
  | VUndefined => "undefined"
  | VNull => "null"
  | VBool true => "true"
  | VBool false => "false"
  | VNum n => int_str n
  | VStr s => s
  | VObj _ => "[object Object]"
  | VArr l =>
      join "," (map (fun x => match x with
                              | VUndefined | VNull => ""
                              | _ => to_str x
                              end) l)
  | VFun src => src
  | VInst _ _ => "[object Object]"
  end.

(** The values on which [to_str] is JavaScript's [ToString]: the primitives,
    with numbers among the integers held exactly; functions; objects with no
    [toString] of their own; arrays of such values. *)
Fixpoint plain_text (v : value) : bool :=
  match v with
  | VNum n => (Z.abs n <? 2 ^ 53)%Z
  | VObj kvs =>
      match lookup "toString" kvs with
      | None => true
      | Some _ => false
      end
  | VArr l => forallb plain_text l
  | VInst _ _ => false
  | _ => true
  end.

(** [v > 0], where the model has the number of [v]: a number, a boolean,
    [null] (0), [undefined] ([NaN]), the empty string (0) and a decimal
    numeral.  Other strings, and the objects, need [StringToNumber] and
    [ToPrimitive]. *)
Definition gt0 (v : value) : M bool :=
  match v with
  | VNum n => ret (0 <? n)%Z
  | VBool b => ret b
  | VNull | VUndefined => ret false
  | VStr s =>
      if String.eqb s "" then ret false
      else
        match NilZero.int_of_string s with
        | Some i => ret (0 <? Z.of_int i)%Z
        | None => throw Unmodelled
        end
  | _ => throw Unmodelled
  end.

(** The elements that [...v] spreads into a call: an array or a string is
    iterable, anything else of this model is not. *)
Definition iterate (v : value) : M (list value) :=
  match v with
  | VArr l => ret l
  | VStr s => ret (string_chars s)
  | _ => throw TypeError
  end.

(** [xs[i]] on a list of arguments. *)
Definition arg (i : nat) (xs : list value) : value := nth i xs VUndefined.

End JS.

(* ===================================================================== *)
(** ** [NodeLogger]                                                       *)
(* ===================================================================== *)

Module NodeLogger.
Import JS.

Local Open Scope string_scope.
Local Open Scope list_scope.

Definition INCOMING_REQUEST_POSTFIX : string := "INCOMING_REQUEST".
Definition SUCCESSFUL_RESPONSE_POSTFIX : string := "SUCCESSFUL_RESPONSE".
Definition EXCEPTION_RESPONSE_POSTFIX : string := "EXCEPTION_RESPONSE".

Definition DEFAULT_NAME_AND_TYPE : string := "example".
Definition DEFAULT_STREAM_TYPE : string := "raw".
Definition DEFAULT_LEVEL : string := "INFO".

Definition HEADER_AUTHORIZATION_PATTERN : string := "***".

(** *** Serializers *)

(** [cookie.replace(...).replace(...)]: only a string has [replace]. *)
Definition replace_cookie (cookie : value) : M value :=
  match cookie with
  | VStr s => ret (VStr (Cookie.redact_cookie s))
  | _ => throw TypeError
  end.

(** [Serializers.header]. *)
Definition header (headers : value) : M value :=
  let headerList := spread headers in
  cookie <- get headerList "cookie" ;;
  headerList <-
    (if truthy cookie
     then (c <- replace_cookie cookie ;; set headerList "cookie" c)
     else ret headerList) ;;
  authorization <- get headerList "authorization" ;;
  if truthy authorization
  then set headerList "authorization" (VStr HEADER_AUTHORIZATION_PATTERN)
  else ret headerList.

(** [Serializers.req]. *)
Definition req (request : value) : M value :=
  url <- get request "url" ;;
  method <- get request "method" ;;
  hs <- get request "headers" ;;
  hs' <- header hs ;;
  ret (VObj [("url", url); ("method", method); ("headers", hs')]).

(** The registry: the three built-in serializers, as functions. *)
Definition Serializers : value :=
  VObj [("header", VFun "header"); ("req", VFun "req"); ("err", VFun "err")].

(** *** Construction *)

(** [_createMeta]: both [get] and [set] return one empty object and keep
    nothing. *)
Definition _createMeta : value := VInst CMeta [].

Definition _createStream (settings meta : value) : M value :=
  isTrim <- get settings "isTrim" ;;
  if truthy isTrim
  then ret (VInst CTrimStream [meta; settings])
  else ret (VInst CMapperStream [meta; settings]).

(** [a || b]. *)
Definition or_else (a b : value) : value := if truthy a then a else b.

(** [_init]: the options handed to the engine. *)
Definition _init (settings : value) : M value :=
  let meta := _createMeta in
  l <- get settings "level" ;;
  let level := or_else l (VStr DEFAULT_LEVEL) in
  own <- get settings "serializers" ;;
  let serializerList := if truthy own then assign Serializers own else Serializers in
  isMapper <- get settings "isMapper" ;;
  streamList <-
    (if truthy isMapper
     then
       (stream <- _createStream settings meta ;;
        ret [VObj [("type", VStr DEFAULT_STREAM_TYPE); ("level", level);
                   ("stream", stream)]])
     else
       (streams <- get settings "streams" ;;
        nonempty <-
          (if truthy streams
           then (n <- get streams "length" ;; gt0 n)
           else ret false) ;;
        if nonempty
        then iterate streams
        else
          ret [VObj [("type", VStr DEFAULT_STREAM_TYPE); ("level", level);
                     ("stream", VInst CBaseStream [meta])]])) ;;
  name <- get settings "name" ;;
  type <- get settings "type" ;;
  ret (VObj [("name", or_else name (VStr DEFAULT_NAME_AND_TYPE));
             ("type", or_else type (VStr DEFAULT_NAME_AND_TYPE));
             ("streams", VArr streamList);
             ("serializers", serializerList)]).

(** [settings instanceof NodeLogger]. *)
Definition is_logger (v : value) : bool :=
  match v with VInst CNodeLogger _ => true | _ => false end.

(** [this._settings]; a value that is no logger has no such field. *)
Definition _settings (this : value) : value :=
  match this with
  | VInst CNodeLogger (s :: _) => s
  | _ => VUndefined
  end.

(** [this._meta.set('log-meta', meta)]: the store of [_createMeta] keeps
    nothing. *)
Definition _setLogMeta (this meta : value) : M unit := ret tt.

(** *** The engine

    [NodeLogger] extends Bunyan, which is not among the sources.  What the
    source asks of it is taken as given, for every engine. *)

Section Engine.

(** [super(options)], the engine's constructor on the options of [_init]:
    the state it builds for the logger, or the error it throws. *)
Variable Bunyan : value -> outcome value.

(** A logger as [_init] reads it: the object of the properties the engine
    gives it ([level], [streams], [serializers], ...). *)
Variable fields_of : value -> value.

(** [logger.level(value)], the engine's setter, on a logger and a level. *)
Variable set_level : value -> value -> outcome unit.

(** A value as its properties are read: a logger through the engine. *)
Definition as_read (v : value) : value :=
  if is_logger v then fields_of v else v.

(** The constructor, [new NodeLogger(settings)]: it has one parameter.
    [super(NodeLogger._init(settings))], then the settings are kept, those
    of the parent when [settings] is a logger. *)
Definition construct (settings : value) : M value :=
  options <- _init (as_read settings) ;;
  state <- lift (Bunyan options) ;;
  let kept := if is_logger settings then _settings settings else settings in
  ret (VInst CNodeLogger [kept; state]).

(** The engine's [child(options, simple)], which is
    [new this.constructor(this, options, simple)]: the constructor above
    takes its first argument and no other, so [options] goes nowhere. *)
Definition child (this options : value) : M value := construct this.

(** [NodeLogger.create], up to the hooks: they are the functions of section
    [Hooks] below, closed over the logger made here. *)
Definition create (settings : value) : M value :=
  logger <- construct settings ;;
  level <- get (as_read settings) "level" ;;
  lift (set_level logger level) ;;
  ret logger.

Definition canSend (this : value) : bool := false.

(** *** [json] and [log] *)

Definition info (this fields msg : value) : M unit := emit (EInfo this fields msg).

(** [newArgs.concat(rest)]. *)
Definition concat (a : value) (rest : list value) : M (list value) :=
  match a with
  | VArr l => ret (l ++ rest)
  | _ => throw TypeError
  end.

Definition json (this : value) (args : value) (rest : list value) : M unit :=
  isJSON <- get (_settings this) "isJSON" ;;
  if negb (truthy isJSON) then ret tt
  else
    let newArgs := VUndefined in
    let newArgs :=
      if is_string args then VArr [VObj [("level", VNum 70)]; args] else newArgs in
    let newArgs :=
      if negb (is_string args)
      then VArr [VObj (obj_set (own_props (spread args)) "level" (VNum 70))]
      else newArgs in
    concatArgs <- concat newArgs rest ;;
    info this (arg 0 concatArgs) (arg 1 concatArgs).

(** [target.json(args, ...rest)]: only a logger has the method. *)
Definition call_json (target args : value) (rest : list value) : M unit :=
  if is_logger target then json target args rest else throw TypeError.

Definition log (this : value) (a : value) (rest : list value) : M unit :=
  let args := spread (VArr rest) in
  let args :=
    if isArray (VArr rest)
    then
      let key := arg 0 rest in
      let value := arg 1 rest in
      VObj [(to_str key, value)]
    else args in
  json this (VObj [("stringData", args)]) [a].

(** The claim's reading of [log]. *)
Definition log_spec (this : value) (a : value) (rest : list value) : M unit :=
  json this (VObj [("stringData", VObj [(to_str (arg 0 rest), arg 1 rest)])]) [a].

(** *** The request hooks of [create] *)

Section Hooks.

(** [uuidV4()]: the identifier the library draws. *)
Variable uuidV4 : string.

(** [Timer.hrtimeToMs(process.hrtime(start))]: the milliseconds since
    [start], or [None] when [process.hrtime] refuses its argument. *)
Variable elapsed : value -> option value.

Definition hrtimeToMs (start : value) : M value :=
  match elapsed start with
  | Some ms => ret ms
  | None => throw TypeError
  end.

(** [res.setHeader(name, v)]: the method is read off the response, then
    called; what is no function cannot be called. *)
Definition setHeader (res : value) (name : string) (v : value) : M unit :=
  method <- get res "setHeader" ;;
  match method with
  | VFun _ => emit (ESetHeader name v)
  | _ => throw TypeError
  end.

Definition next : M unit := emit (ENext None).
Definition next_with (err : value) : M unit := emit (ENext (Some err)).

(** [!req.requestId || !req.timeStart]. *)
Definition no_context (req : value) : M bool :=
  requestId <- get req "requestId" ;;
  if negb (truthy requestId) then ret true
  else (timeStart <- get req "timeStart" ;; ret (negb (truthy timeStart))).

(** [logger.middleware]; the result is the request as the hook leaves it. *)
Definition middleware (logger req res : value) : M value :=
  headers <- get req "headers" ;;
  requestId <- get headers "x-request-id" ;;
  requestId <-
    (if negb (truthy requestId)
     then (setHeader res "x-request-id" (VStr uuidV4) ;; ret (VStr uuidV4))
     else ret requestId) ;;
  let meta := VObj [("requestId", requestId)] in
  _setLogMeta logger meta ;;
  req <- set req "requestId" requestId ;;
  c <- child logger (VObj [("__meta", meta); ("className", VStr "server")]) ;;
  req <- set req "log" c ;;
  l <- get req "log" ;;
  call_json l (VObj [("req", req)]) [VStr INCOMING_REQUEST_POSTFIX] ;;
  next ;;
  ret req.

Definition middlewareSuccessfulShortResponse (req res : value) : M unit :=
  skip <- no_context req ;;
  if skip then next
  else
    start <- get req "timeStart" ;;
    time <- hrtimeToMs start ;;
    l <- get req "log" ;;
    call_json l
      (VObj [("secureJsonData",
              VObj [("code", VNum 200); ("meta", VObj [("time", time)])])])
      [VStr SUCCESSFUL_RESPONSE_POSTFIX] ;;
    next.

Definition middlewareSuccessfulResponse (req res : value) : M unit :=
  skip <- no_context req ;;
  if skip then next
  else
    start <- get req "timeStart" ;;
    time <- hrtimeToMs start ;;
    r <- get res "result" ;;
    if negb (truthy r) && negb (is_null r) then next
    else
      stream <- get r "stream" ;;
      if truthy stream then next
      else
        l <- get req "log" ;;
        requestId <- get req "requestId" ;;
        call_json l
          (VObj [("secureJsonData",
                  VObj [("code", VNum 200); ("result", r);
                        ("meta", VObj [("requestId", requestId); ("time", time)])])])
          [VStr SUCCESSFUL_RESPONSE_POSTFIX] ;;
        next.

Definition middlewareExceptionResponse (err req res : value) : M unit :=
  skip <- no_context req ;;
  if skip then next
  else
    start <- get req "timeStart" ;;
    time <- hrtimeToMs start ;;
    message <- get err "message" ;;
    msg <- get message "msg" ;;
    let errorMessage := or_else msg message in
    statusCode <- get err "statusCode" ;;
    let errorCode := if negb (truthy statusCode) then VNum 400 else statusCode in
    l <- get req "log" ;;
    name <- get err "name" ;;
    requestId <- get req "requestId" ;;
    call_json l
      (VObj [("secureJsonData",
              VObj [("error", VObj [("code", errorCode); ("name", name);
                                    ("message", errorMessage)]);
                    ("meta", VObj [("requestId", requestId); ("time", time)])])])
      [VStr EXCEPTION_RESPONSE_POSTFIX] ;;
    next_with err.

End Hooks.

End Engine.

End NodeLogger.

(* ===================================================================== *)
(** ** [GelfStream]                                                       *)
(* ===================================================================== *)

Module GelfStream.
Import JS.

Local Open Scope string_scope.
Local Open Scope list_scope.

Section Write.

(** [BaseStream._map], inherited from [./base.stream], which is not among
    the sources: the transform a stream applies to a record before it leaves;
    it gives the record to send, or throws. *)
Variable _map : value -> outcome value.

(** [JSON.stringify]: the text of a value, [None] ([undefined]) when it has
    none; it throws on a value it refuses (a cycle, a [BigInt]). *)
Variable JSON_stringify : value -> outcome (option string).

Definition NEWLINE : string := String (ascii_of_nat 10) EmptyString.

(** [`${text}`] on what [JSON.stringify] returns. *)
Definition template (text : option string) : string :=
  match text with
  | Some t => t
  | None => "undefined"
  end.

(** [write]: the arguments are evaluated, then [emit] is called once. *)
Definition write (record : value) : M unit :=
  mapped <- lift (_map record) ;;
  text <- lift (JSON_stringify mapped) ;;
  emit (EEmit "gelf.log" (VStr (String.append (template text) NEWLINE))).

(** The records of a run, written one after the other. *)
Fixpoint write_all (records : list value) : M unit :=
  match records with
  | [] => ret tt
  | r :: rest => write r ;; write_all rest
  end.

End Write.

End GelfStream.

(* ===================================================================== *)
(** ** Notions used to state and prove the properties                     *)
(* ===================================================================== *)

Module Notions.
Import JS NodeLogger Cookie.

Local Open Scope string_scope.
Local Open Scope list_scope.

(** *** On cookies *)

(** A character that [.+?] steps over without ending the match. *)
Definition clean (c : ascii) : bool := negb (is_lt c) && negb (Ascii.eqb c SEMI).

(** A character of a pattern's literal: clean, and not the mask's star. *)
Definition plain (c : ascii) : bool := clean c && negb (Ascii.eqb c STAR).

(** [c] is none of the characters of [l]. *)
Definition notin (c : ascii) (l : chars) : bool :=
  forallb (fun x => negb (Ascii.eqb c x)) l.

(** [u] is what is left of [s] from some position on. *)
Definition is_suffix (u s : chars) : Prop := exists a, s = a ++ u.

(** A position is settled when a match starting there is already masked. *)
Definition good (p u : chars) : Prop :=
  forall t rest, match_at p u = Some (t, rest) -> u = p ++ MASK ++ t ++ rest.

(** A text is settled when every position of it is. *)
Definition settled (p s : chars) : Prop := forall u, is_suffix u s -> good p u.

(** What one pass asks of a pair: under the key of the pass a value the
    expression takes whole, elsewhere no occurrence of its literal. *)
Definition ok_for (k0 : string) (p : chars) (kv : string * string) : bool :=
  if String.eqb (fst kv) k0 then value_ok (snd kv)
  else negb (occurs p (render_pair kv)).

(** *** On the facade *)

(** The [streams] option of the options [_init] returns. *)
Definition streams_of (m : M value) : option (list value) :=
  match m with
  | (_, Ret (VObj kvs)) =>
      match lookup "streams" kvs with
      | Some (VArr l) => Some l
      | _ => None
      end
  | _ => None
  end.

(** [o.k] on an object literal. *)
Definition prop (kvs : list (string * value)) (k : string) : value :=
  or_undefined (lookup k kvs).

(** The one binding of the [isMapper]/[isTrim] path. *)
Definition convenience_binding (kvs : list (string * value)) : value :=
  VObj [("type", VStr DEFAULT_STREAM_TYPE);
        ("level", or_else (prop kvs "level") (VStr DEFAULT_LEVEL));
        ("stream",
         VInst (if truthy (prop kvs "isTrim") then CTrimStream else CMapperStream)
               [_createMeta; VObj kvs])].

(** The one binding of the default path. *)
Definition default_binding (kvs : list (string * value)) : value :=
  VObj [("type", VStr DEFAULT_STREAM_TYPE);
        ("level", or_else (prop kvs "level") (VStr DEFAULT_LEVEL));
        ("stream", VInst CBaseStream [_createMeta])].

(** The events that reach the engine, and those that set a response header. *)
Definition is_info (e : event) : bool :=
  match e with EInfo _ _ _ => true | _ => false end.

Definition is_set_header (e : event) : bool :=
  match e with ESetHeader _ _ => true | _ => false end.

(** Sample settings: one explicit binding, alone and beside [isMapper]. *)
Definition user_binding : value :=
  VObj [("type", VStr "raw"); ("level", VStr "error");
        ("stream", VInst CBaseStream [_createMeta])].

Definition both_configured : list (string * value) :=
  [("isMapper", VBool true); ("streams", VArr [user_binding])].

(** A logger over settings that hold [isJSON] alone. *)
Definition a_logger (isJSON : bool) : value :=
  VInst CNodeLogger [VObj [("isJSON", VBool isJSON)]; VUndefined].

(** The fields [json] hands to the engine. *)
Definition json_fields (args : value) : list (string * value) :=
  if is_string args then [("level", VNum 70)]
  else obj_set (own_props (spread args)) "level" (VNum 70).

(** The message [json] hands to the engine. *)
Definition json_msg (args : value) (rest : list value) : value :=
  if is_string args then args else arg 0 rest.

(** Sample requests, responses and errors; a timer that answers 5 ms. *)
Definition five_ms (start : value) : option value := Some (VNum 5).

Definition not_found : value :=
  VObj [("statusCode", VNum 404); ("name", VStr "NotFound");
        ("message", VStr "missing")].

Definition bare_request : value :=
  VObj [("url", VStr "/"); ("method", VStr "GET"); ("headers", VObj [])].

Definition a_response (r : value) : value := VObj [("result", r)].

Definition request_with_id : value :=
  VObj [("url", VStr "/"); ("method", VStr "GET");
        ("headers", VObj [("x-request-id", VStr "abc-123")])].

(** A response of the framework: it has [setHeader]. *)
Definition server_response (r : value) : value :=
  VObj [("setHeader", VFun "setHeader"); ("result", r)].

(** The request as the hook leaves it: the request id and the logger set. *)
Definition started (kvs : list (string * value)) (requestId log : value) : value :=
  VObj (obj_set (obj_set kvs "requestId" requestId) "log" log).

(** The options the hook hands to [child]. *)
Definition child_options (requestId : value) : value :=
  VObj [("__meta", VObj [("requestId", requestId)]); ("className", VStr "server")].

(** The record of the hook on the engine, and nothing with [isJSON] off. *)
Definition incoming (j log req : value) : list event :=
  if truthy j
  then [EInfo log (VObj [("req", req); ("level", VNum 70)])
          (VStr INCOMING_REQUEST_POSTFIX)]
  else [].

(** A sample engine: it accepts every options object and keeps it as the
    state of the logger; a logger shows no property to a reader. *)
Definition accepting (options : value) : outcome value := Ret options.

Definition bare (logger : value) : value := VObj [].

Definition any_level (logger level : value) : outcome unit := Ret tt.

(** The options [_init] builds from an empty object. *)
Definition default_options : value :=
  VObj [("name", VStr DEFAULT_NAME_AND_TYPE); ("type", VStr DEFAULT_NAME_AND_TYPE);
        ("streams", VArr [default_binding []]); ("serializers", Serializers)].

(** The child this engine makes of [a_logger isJSON]. *)
Definition a_child (isJSON : bool) : value :=
  VInst CNodeLogger [VObj [("isJSON", VBool isJSON)]; default_options].

Definition request_in_flight : value :=
  VObj [("requestId", VStr "r1"); ("timeStart", VArr [VNum 1; VNum 0]);
        ("log", a_logger true)].

Definition streaming : value := VObj [("stream", VInst CBaseStream [])].

(** One step of the copy that [spread] and [assign] make. *)
Definition put (acc : list (string * value)) (kv : string * value) :=
  obj_set acc (fst kv) (snd kv).

(** The two steps of [header] on the copy of the headers. *)
Definition cookie_step (kvs : list (string * value)) : M value :=
  cookie <- get (VObj kvs) "cookie" ;;
  if truthy cookie
  then (c <- replace_cookie cookie ;; set (VObj kvs) "cookie" c)
  else ret (VObj kvs).

Definition authorization_step (headerList : value) : M value :=
  authorization <- get headerList "authorization" ;;
  if truthy authorization
  then set headerList "authorization" (VStr HEADER_AUTHORIZATION_PATTERN)
  else ret headerList.

(** A cookie that the first step leaves alone. *)
Definition cookie_done (o : option value) : Prop :=
  match o with
  | Some (VStr s) => Cookie.redact_cookie s = s
  | Some c => truthy c = false
  | None => True
  end.

(** An authorization that the second step leaves alone. *)
Definition authorization_done (o : option value) : Prop :=
  match o with
  | Some a => truthy a = false \/ a = VStr HEADER_AUTHORIZATION_PATTERN
  | None => True
  end.

(** A cookie with a name that ends in [rm]. *)
Definition cookie_with_term : list (string * string) :=
  [("sid", "abc"); ("term", "xterm"); ("a", "1")].

(** The messages of one record on the wire of the network sink: one when the
    transform and [JSON.stringify] return, none when one of them throws. *)
Definition wire (_map : value -> outcome value)
    (JSON_stringify : value -> outcome (option string)) (record : value) : list event :=
  match _map record with
  | Ret mapped =>
      match JSON_stringify mapped with
      | Ret text =>
          [EEmit "gelf.log"
             (VStr (String.append (GelfStream.template text) GelfStream.NEWLINE))]
      | Threw _ => []
      end
  | Threw _ => []
  end.

(** A record that the transform and [JSON.stringify] accept. *)
Definition accepted (_map : value -> outcome value)
    (JSON_stringify : value -> outcome (option string)) (record : value) : bool :=
  match wire _map JSON_stringify record with
  | [] => false
  | _ => true
  end.

(** A transform that changes nothing; [JSON.stringify] on a record it has a
    text for, and on a record it refuses. *)
Definition unchanged (record : value) : outcome value := Ret record.

Definition braces (v : value) : outcome (option string) := Ret (Some "{}").

Definition refusing (v : value) : outcome (option string) := Threw TypeError.

End Notions.

(* ===================================================================== *)
(** ** Facts about the redaction passes                                   *)
(* ===================================================================== *)

Module CookieFacts.
Import Cookie Notions.

Lemma replace_all_nil p : replace_all p [] = [].
Proof. now simp replace_all. Qed.

Lemma match_at_nil p : match_at p [] = None.
Proof. destruct p; reflexivity. Qed.

Lemma replace_all_some p s t rest :
  match_at p s = Some (t, rest) ->
  replace_all p s = p ++ MASK ++ t ++ replace_all p rest.
Proof.
  intros H. destruct s as [|c r]; [now rewrite match_at_nil in H|].
  simp replace_all.
  generalize (inspect (match_at p (c :: r))). intros [o e].
  destruct o as [[t' rest']|]; simp replace_all.
  - rewrite H in e. injection e as <- <-. reflexivity.
  - congruence.
Qed.

Lemma replace_all_none p c r :
  match_at p (c :: r) = None -> replace_all p (c :: r) = c :: replace_all p r.
Proof.
  intros H. simp replace_all.
  generalize (inspect (match_at p (c :: r))). intros [o e].
  destruct o as [[t' rest']|]; simp replace_all.
  - congruence.
  - reflexivity.
Qed.

(** Induction along the scan of [replace_all]. *)
Lemma replace_all_scan_ind (p : chars) (P : chars -> Prop) :
  P [] ->
  (forall c r, match_at p (c :: r) = None -> P r -> P (c :: r)) ->
  (forall s t rest, match_at p s = Some (t, rest) -> P rest -> P s) ->
  forall s, P s.
Proof.
  intros Hnil Hnone Hsome s.
  remember (length s) as n eqn:En.
  assert (Hle : length s <= n) by lia. clear En.
  revert s Hle. induction n as [|n IH]; intros s Hle.
  - destruct s; [exact Hnil | simpl in Hle; lia].
  - destruct s as [|c r]; [exact Hnil|].
    destruct (match_at p (c :: r)) as [[t rest]|] eqn:E.
    + apply (Hsome _ _ _ E). apply IH.
      apply match_at_shorter in E. simpl in *. lia.
    + apply (Hnone _ _ E). apply IH. simpl in Hle. lia.
Qed.

Lemma strip_prefix_app p w : strip_prefix p (p ++ w) = Some w.
Proof.
  induction p as [|x p IH]; simpl; [reflexivity|].
  now rewrite Ascii.eqb_refl.
Qed.

Lemma strip_prefix_inv p s w : strip_prefix p s = Some w -> s = p ++ w.
Proof.
  revert s; induction p as [|x p IH]; intros s H; simpl in H.
  - now injection H as <-.
  - destruct s as [|y s]; [discriminate|].
    destruct (Ascii.eqb x y) eqn:E; [|discriminate].
    apply Ascii.eqb_eq in E. subst y. simpl. f_equal. now apply IH.
Qed.

Lemma clean_inv c : clean c = true -> is_lt c = false /\ Ascii.eqb c SEMI = false.
Proof.
  unfold clean. intros H. apply andb_true_iff in H as [H1 H2].
  split; now apply negb_true_iff.
Qed.

Lemma plain_clean c : plain c = true -> clean c = true.
Proof. unfold plain. intros H. now apply andb_true_iff in H as [H _]. Qed.

Lemma plain_all_clean p : forallb plain p = true -> forallb clean p = true.
Proof.
  induction p as [|x p IH]; simpl; [easy|].
  intros H. apply andb_true_iff in H as [H1 H2].
  now rewrite (plain_clean _ H1), IH.
Qed.

Lemma match_tail_clean_app a s :
  forallb clean a = true -> match_tail (a ++ s) = match_tail s.
Proof.
  induction a as [|x a IH]; simpl; [easy|].
  intros H. apply andb_true_iff in H as [H1 H2].
  apply clean_inv in H1 as [Hl Hs]. rewrite Hs, Hl. now apply IH.
Qed.

Lemma match_tail_shape s t rest :
  match_tail s = Some (t, rest) -> t = [SEMI] \/ (t = [] /\ rest = []).
Proof.
  induction s as [|c r IH]; simpl; intros H.
  - injection H as <- <-. now right.
  - destruct (Ascii.eqb c SEMI).
    + injection H as <- <-. now left.
    + destruct (is_lt c); [discriminate|]. now apply IH.
Qed.

Lemma match_at_shape p s t rest :
  match_at p s = Some (t, rest) -> t = [SEMI] \/ (t = [] /\ rest = []).
Proof.
  unfold match_at. destruct (strip_prefix p s) as [w|]; [|discriminate].
  destruct w as [|c r]; simpl; [discriminate|].
  destruct (is_lt c); [discriminate|]. apply match_tail_shape.
Qed.

Lemma body_none_of_tail_none w : match_tail w = None -> match_body w = None.
Proof.
  destruct w as [|c r]; simpl; [discriminate|].
  destruct (Ascii.eqb c SEMI); [discriminate|].
  now destruct (is_lt c).
Qed.

Lemma body_clean_app a w :
  forallb clean a = true -> match_body (a ++ w) = None -> match_body w = None.
Proof.
  destruct a as [|x a]; simpl; [easy|].
  intros H. apply andb_true_iff in H as [H1 H2].
  apply clean_inv in H1 as [Hl _]. rewrite Hl, (match_tail_clean_app _ _ H2).
  apply body_none_of_tail_none.
Qed.

Section OnePattern.

Variable q : chars.
Hypothesis q_plain : forallb plain q = true.

Lemma body_none_match_none s : match_body s = None -> match_at q s = None.
Proof.
  intros H. unfold match_at.
  destruct (strip_prefix q s) as [w|] eqn:E; [|reflexivity].
  apply strip_prefix_inv in E. subst s.
  eapply body_clean_app; [|exact H]. now apply plain_all_clean.
Qed.

Lemma tail_none_match_none s : match_tail s = None -> match_at q s = None.
Proof. intros H. now apply body_none_match_none, body_none_of_tail_none. Qed.

Lemma tail_none_replace s :
  match_tail s = None -> match_tail (replace_all q s) = None.
Proof.
  induction s as [|c r IH]; intros H; [discriminate|].
  rewrite (replace_all_none _ _ _ (tail_none_match_none _ H)).
  simpl in *. destruct (Ascii.eqb c SEMI); [discriminate|].
  destruct (is_lt c); [reflexivity|]. now apply IH.
Qed.

Lemma body_none_replace s :
  match_body s = None -> match_body (replace_all q s) = None.
Proof.
  destruct s as [|c r]; intros H; [now rewrite replace_all_nil|].
  rewrite (replace_all_none _ _ _ (body_none_match_none _ H)).
  simpl in *. destruct (is_lt c); [reflexivity|]. now apply tail_none_replace.
Qed.

Lemma prefix_in_masked p w' Y :
  forallb plain p = true ->
  strip_prefix p (q ++ STAR :: Y) = Some w' -> exists q2, q = p ++ q2.
Proof.
  clear q_plain. revert q.
  induction p as [|x p IH]; intros q Hp H; [now exists q|].
  simpl in Hp. apply andb_true_iff in Hp as [Hx Hp].
  destruct q as [|y q]; simpl in H.
  - unfold plain in Hx. apply andb_true_iff in Hx as [_ Hx].
    apply negb_true_iff in Hx. now rewrite Hx in H.
  - destruct (Ascii.eqb x y) eqn:E; [|discriminate].
    apply Ascii.eqb_eq in E. subst y.
    destruct (IH _ Hp H) as [q2 ->]. now exists q2.
Qed.

(** A position where [p] has no match has none after a pass of [q] either:
    a pass neither removes a line terminator nor adds a [;]. *)
Lemma match_none_replace s : forall p,
  forallb plain p = true ->
  match_at p s = None -> match_at p (replace_all q s) = None.
Proof.
  induction s as [|c r IH]; intros p Hp H.
  - now rewrite replace_all_nil.
  - destruct p as [|x p'].
    + apply body_none_replace. exact H.
    + destruct (match_at q (c :: r)) as [[t rest]|] eqn:Eq.
      * rewrite (replace_all_some _ _ _ _ Eq).
        unfold match_at at 1.
        destruct (strip_prefix (x :: p') _) as [w'|] eqn:Es; [|reflexivity].
        exfalso.
        destruct (prefix_in_masked _ _ _ Hp Es) as [q2 Hq].
        unfold match_at in Eq.
        destruct (strip_prefix q (c :: r)) as [w|] eqn:Ew; [|discriminate].
        apply strip_prefix_inv in Ew.
        rewrite Hq, <- app_assoc in Ew.
        unfold match_at in H. rewrite Ew, strip_prefix_app in H.
        apply body_clean_app in H; [congruence|].
        apply plain_all_clean in q_plain. rewrite Hq, forallb_app in q_plain.
        now apply andb_true_iff in q_plain.
      * rewrite (replace_all_none _ _ _ Eq).
        unfold match_at in *. simpl in *.
        destruct (Ascii.eqb x c); [|reflexivity].
        simpl in Hp. apply andb_true_iff in Hp as [_ Hp].
        apply (IH p' Hp H).
Qed.

End OnePattern.

Lemma is_suffix_refl s : is_suffix s s.
Proof. now exists []. Qed.

Lemma is_suffix_cons u c s : is_suffix u s -> is_suffix u (c :: s).
Proof. intros [a ->]. now exists (c :: a). Qed.

Lemma is_suffix_app u a s : is_suffix u s -> is_suffix u (a ++ s).
Proof. intros [b ->]. exists (a ++ b). now rewrite app_assoc. Qed.

Lemma is_suffix_trans u v s : is_suffix u v -> is_suffix v s -> is_suffix u s.
Proof. intros [a ->] [b ->]. exists (b ++ a). now rewrite app_assoc. Qed.

Lemma is_suffix_nil u : is_suffix u [] -> u = [].
Proof. intros [a H]. symmetry in H. now apply app_eq_nil in H. Qed.

(** A suffix of [A ++ X] is a suffix of [X], or starts inside [A]. *)
Lemma is_suffix_app_inv u A X :
  is_suffix u (A ++ X) ->
  is_suffix u X \/ exists a b, A = a ++ b /\ b <> [] /\ u = b ++ X.
Proof.
  induction A as [|c A IH]; intros [a H]; simpl in H.
  - left. now exists a.
  - destruct a as [|d a]; simpl in H.
    + right. exists [], (c :: A). subst u. now repeat split.
    + injection H as -> H.
      destruct IH as [Hs | (a' & b & -> & Hb & ->)]; [now exists a | now left |].
      right. exists (d :: a'), b. now repeat split.
Qed.

Lemma match_at_suffix p s t rest :
  match_at p s = Some (t, rest) -> is_suffix rest s.
Proof.
  unfold match_at. destruct (strip_prefix p s) as [w|] eqn:E; [|discriminate].
  apply strip_prefix_inv in E. subst s. intros H.
  apply is_suffix_app.
  destruct w as [|c r]; simpl in H; [discriminate|].
  destruct (is_lt c); [discriminate|]. apply is_suffix_cons.
  clear -H. revert H. induction r as [|d r IH]; simpl; intros H.
  - injection H as <- <-. apply is_suffix_refl.
  - destruct (Ascii.eqb d SEMI).
    + injection H as <- <-. apply is_suffix_cons, is_suffix_refl.
    + destruct (is_lt d); [discriminate|]. now apply is_suffix_cons, IH.
Qed.

Lemma settled_suffix p u s : is_suffix u s -> settled p s -> settled p u.
Proof. intros Hu Hs v Hv. apply Hs. eapply is_suffix_trans; eassumption. Qed.

(** A settled text is a fixed point of the pass. *)
Lemma settled_fixed p s : settled p s -> replace_all p s = s.
Proof.
  induction s as [| c r E IH | s t rest E IH] using (replace_all_scan_ind p);
    intros H.
  - apply replace_all_nil.
  - rewrite (replace_all_none _ _ _ E). f_equal. apply IH.
    eapply settled_suffix; [|exact H]. apply is_suffix_cons, is_suffix_refl.
  - rewrite (replace_all_some _ _ _ _ E).
    rewrite IH by (eapply settled_suffix; [eapply match_at_suffix, E | exact H]).
    symmetry. apply (H s (is_suffix_refl s) _ _ E).
Qed.

(** Where the text after a pass comes from: a suffix of the output is the
    image of a suffix of the input that the scan copied, or it starts inside
    the replacement of a match. *)
Lemma suffix_replace q s : forall u',
  is_suffix u' (replace_all q s) ->
  (exists u, is_suffix u s /\ match_at q u = None /\ u' = replace_all q u) \/
  (exists u t rest a b,
      is_suffix u s /\ match_at q u = Some (t, rest) /\
      q ++ MASK ++ t = a ++ b /\ b <> [] /\ u' = b ++ replace_all q rest).
Proof.
  induction s as [| c r E IH | s t rest E IH] using (replace_all_scan_ind q);
    intros u' H.
  - rewrite replace_all_nil in H. apply is_suffix_nil in H. subst u'.
    left. exists []. rewrite replace_all_nil, match_at_nil.
    repeat split. apply is_suffix_refl.
  - rewrite (replace_all_none _ _ _ E) in H. destruct H as [a H].
    destruct a as [|d a]; simpl in H.
    + left. exists (c :: r). rewrite (replace_all_none _ _ _ E).
      repeat split; [apply is_suffix_refl | assumption | now symmetry].
    + injection H as _ H.
      destruct (IH u') as [(u & Hu & Hn & Hr) | (u & t & rest & a' & b & Hu & Hr)];
        [now exists a | left | right].
      * exists u. repeat split; try assumption. now apply is_suffix_cons.
      * exists u, t, rest, a', b. split; [now apply is_suffix_cons | exact Hr].
  - rewrite (replace_all_some _ _ _ _ E) in H.
    replace (q ++ MASK ++ t ++ replace_all q rest)
      with ((q ++ MASK ++ t) ++ replace_all q rest) in H
      by now rewrite <- !app_assoc.
    apply is_suffix_app_inv in H as [H | (a & b & Hab & Hb & ->)].
    + pose proof (match_at_suffix _ _ _ _ E) as Hrest.
      destruct (IH u' H) as [(u & Hu & Hn & Hr) | (u & t' & rest' & a' & b & Hu & Hr)];
        [left | right].
      * exists u. repeat split; try assumption.
        eapply is_suffix_trans; eassumption.
      * exists u, t', rest', a', b. split; [|exact Hr].
        eapply is_suffix_trans; eassumption.
    + right. exists s, t, rest, a, b.
      repeat split; try assumption. apply is_suffix_refl.
Qed.

(** A masked segment matches again as itself. *)
Lemma masked_good p t Z :
  (t = [SEMI] \/ (t = [] /\ Z = [])) -> good p (p ++ MASK ++ t ++ Z).
Proof.
  intros Ht t' rest' H. unfold match_at in H. rewrite strip_prefix_app in H.
  destruct Ht as [-> | [-> ->]]; cbn in H; injection H as <- <-; reflexivity.
Qed.

Lemma notin_app c a b : notin c (a ++ b) = true -> notin c a = true /\ notin c b = true.
Proof. unfold notin. rewrite forallb_app. apply andb_true_iff. Qed.

Lemma notin_group2 c A t :
  (t = [SEMI] \/ t = []) ->
  notin c (A ++ MASK ++ [SEMI]) = true -> notin c (A ++ MASK ++ t) = true.
Proof.
  intros [-> | ->] H; [exact H|].
  unfold notin in *. rewrite !forallb_app in *.
  apply andb_true_iff in H as [H1 H2]. apply andb_true_iff in H2 as [H2 _].
  now rewrite H1, H2.
Qed.

Lemma match_at_head_differs h q' b X :
  b <> [] -> notin h b = true -> match_at (h :: q') (b ++ X) = None.
Proof.
  destruct b as [|x b]; [easy|]. intros _ H. simpl in H.
  apply andb_true_iff in H as [H _]. apply negb_true_iff in H.
  unfold match_at. simpl. now rewrite H.
Qed.

(** Text in which the pattern's first character does not occur is copied. *)
Lemma replace_all_copy h q' a Y :
  notin h a = true ->
  replace_all (h :: q') (a ++ Y) = a ++ replace_all (h :: q') Y.
Proof.
  induction a as [|x a IH]; intros H; [reflexivity|].
  simpl in H. apply andb_true_iff in H as [Hx Ha].
  simpl. rewrite replace_all_none; [now rewrite IH|].
  apply (match_at_head_differs h q' [x] (a ++ Y)); [easy|].
  simpl. now rewrite Hx.
Qed.

Section OnePass.

Variables (hp : ascii) (p' : chars).
Local Abbreviation p := (hp :: p').

Hypothesis p_plain : forallb plain p = true.
Hypothesis p_head : notin hp (p' ++ MASK ++ [SEMI]) = true.

(** After a pass every match is masked. *)
Lemma settled_replace_self s : settled p (replace_all p s).
Proof.
  intros u' Hu'.
  destruct (suffix_replace _ _ _ Hu')
    as [(u & Hu & Hn & ->) | (u & t & rest & a & b & Hu & Hm & Hab & Hb & ->)].
  - intros t rest H.
    rewrite (match_none_replace p p_plain u p p_plain Hn) in H. discriminate.
  - pose proof (match_at_shape _ _ _ _ Hm) as Ht.
    destruct a as [|x a].
    + change ([] ++ b) with b in Hab. subst b.
      replace ((p ++ MASK ++ t) ++ replace_all p rest)
        with (p ++ MASK ++ t ++ replace_all p rest)
        by now rewrite <- !app_assoc.
      apply (masked_good p).
      destruct Ht as [-> | [-> ->]]; [now left | right].
      now rewrite replace_all_nil.
    + assert (Hab' : p' ++ MASK ++ t = a ++ b)
        by (injection Hab; intros E _; exact E).
      clear Hab; rename Hab' into Hab.
      intros t' rest' H. rewrite match_at_head_differs in H; [discriminate | assumption |].
      assert (Hn : notin hp (p' ++ MASK ++ t) = true).
      { apply notin_group2; [tauto | exact p_head]. }
      rewrite Hab in Hn. now apply notin_app in Hn.
Qed.

Lemma replace_all_idem s : replace_all p (replace_all p s) = replace_all p s.
Proof. apply settled_fixed, settled_replace_self. Qed.

End OnePass.

Section TwoPasses.

Variables (hp : ascii) (p' : chars) (hq : ascii) (q' : chars).
Local Abbreviation p := (hp :: p').
Local Abbreviation q := (hq :: q').

Hypothesis p_plain : forallb plain p = true.
Hypothesis q_plain : forallb plain q = true.
Hypothesis p_not_in_q : notin hp (q ++ MASK ++ [SEMI]) = true.
Hypothesis q_not_in_p : notin hq (p ++ MASK ++ [SEMI]) = true.

(** A pass of [q] keeps a text settled for [p]. *)
Lemma settled_replace_other s : settled p s -> settled p (replace_all q s).
Proof.
  intros Hs u' Hu'.
  destruct (suffix_replace _ _ _ Hu')
    as [(u & Hu & Hn & ->) | (u & t & rest & a & b & Hu & Hm & Hab & Hb & ->)].
  - intros t rest H.
    destruct (match_at p u) as [[t0 rest0]|] eqn:E.
    + pose proof (match_at_shape _ _ _ _ E) as Ht.
      pose proof (Hs u Hu _ _ E) as Hu0.
      assert (Hc : replace_all q u = p ++ MASK ++ t0 ++ replace_all q rest0).
      { rewrite Hu0 at 1.
        replace (p ++ MASK ++ t0 ++ rest0) with ((p ++ MASK ++ t0) ++ rest0)
          by now rewrite <- !app_assoc.
        rewrite replace_all_copy; [now rewrite <- !app_assoc|].
        apply notin_group2; [tauto | exact q_not_in_p]. }
      rewrite Hc in H |- *. revert H. apply (masked_good p).
      destruct Ht as [-> | [-> ->]]; [now left | right].
      now rewrite replace_all_nil.
    + rewrite (match_none_replace q q_plain u p p_plain E) in H. discriminate.
  - pose proof (match_at_shape _ _ _ _ Hm) as Ht.
    intros t' rest' H. rewrite match_at_head_differs in H; [discriminate | assumption |].
    assert (Hn : notin hp (q ++ MASK ++ t) = true).
    { apply notin_group2; [tauto | exact p_not_in_q]. }
    rewrite Hab in Hn. now apply notin_app in Hn.
Qed.

End TwoPasses.

(** The two passes of the source, one after the other, are idempotent. *)
Lemma redact_idem s : redact (redact s) = redact s.
Proof.
  unfold redact.
  assert (H : replace_all SID (replace_all RM (replace_all SID s))
              = replace_all RM (replace_all SID s)).
  { apply settled_fixed.
    apply (settled_replace_other "s"%char (of_string "id=") "r"%char (of_string "m="));
      try reflexivity.
    apply (settled_replace_self "s"%char (of_string "id=")); reflexivity. }
  replace (replace_all SID (replace_all RM (replace_all SID s)))
    with (replace_all RM (replace_all SID s)).
  apply (replace_all_idem "r"%char (of_string "m=")); reflexivity.
Qed.

(** *** The redactor on a well-formed cookie *)

Lemma strip_prefix_app_none p a Y :
  forallb plain p = true ->
  strip_prefix p a = None -> (Y = [] \/ exists Y', Y = SEMI :: Y') ->
  strip_prefix p (a ++ Y) = None.
Proof.
  revert a. induction p as [|x p IH]; intros a Hp H HY; [discriminate|].
  simpl in Hp. apply andb_true_iff in Hp as [Hx Hp].
  destruct a as [|y a]; simpl in *.
  - destruct HY as [-> | [Y' ->]]; [reflexivity|].
    apply plain_clean, clean_inv in Hx as [_ Hx]. now rewrite Hx.
  - destruct (Ascii.eqb x y); [now apply IH | reflexivity].
Qed.

(** Text in which the pattern does not occur is copied, up to a [;] or the
    end of the input. *)
Lemma replace_all_no_occurrence p a Y :
  forallb plain p = true ->
  occurs p a = false -> (Y = [] \/ exists Y', Y = SEMI :: Y') ->
  replace_all p (a ++ Y) = a ++ replace_all p Y.
Proof.
  intros Hp. induction a as [|x a IH]; intros H HY; [reflexivity|].
  simpl in H. apply orb_false_iff in H as [H1 H2].
  change ((x :: a) ++ Y) with (x :: (a ++ Y)).
  rewrite replace_all_none; [simpl; now rewrite IH|].
  unfold match_at.
  change (x :: (a ++ Y)) with ((x :: a) ++ Y).
  rewrite strip_prefix_app_none; try assumption; [reflexivity|].
  unfold starts in H1. now destruct (strip_prefix p (x :: a)).
Qed.

Lemma value_ok_inv v :
  value_ok v = true ->
  exists c w, of_string v = c :: w /\ is_lt c = false /\ forallb clean w = true.
Proof.
  unfold value_ok. destruct (of_string v) as [|c w]; [discriminate|].
  intros H. simpl in H. apply andb_true_iff in H as [Hc Hw].
  exists c, w. repeat split; [|exact Hw].
  apply andb_true_iff in Hc as [Hc _]. now apply negb_true_iff.
Qed.

Section Pass.

Variables (k0 : string) (h : ascii) (p' : chars).
Local Abbreviation p := (h :: p').

Hypothesis p_key : of_string k0 ++ [EQ] = p.
Hypothesis p_plain : forallb plain p = true.
Hypothesis p_space : Ascii.eqb h SPACE = false.

Local Abbreviation ok := (ok_for k0 p).

Lemma replace_all_separator Y :
  replace_all p (SEMI :: SPACE :: Y) = SEMI :: SPACE :: replace_all p Y.
Proof.
  apply (replace_all_copy h p' [SEMI; SPACE] Y). simpl.
  rewrite p_space. simpl in p_plain. apply andb_true_iff in p_plain as [Hh _].
  apply plain_clean, clean_inv in Hh as [_ Hh]. now rewrite Hh.
Qed.

Lemma replace_all_pair kv Y :
  ok kv = true -> (Y = [] \/ exists Y', Y = SEMI :: Y') ->
  replace_all p (render_pair kv ++ Y)
  = render_pair (mask_key k0 kv) ++ replace_all p Y.
Proof.
  destruct kv as [k v]. unfold ok_for, mask_key. cbn [fst snd].
  destruct (String.eqb k k0) eqn:Ek; intros Hok HY.
  - apply String.eqb_eq in Ek. subst k.
    destruct (value_ok_inv _ Hok) as (c & w & Hv & Hc & Hw).
    unfold render_pair. cbn [fst snd].
    replace (of_string (to_string MASK)) with MASK by reflexivity.
    replace (of_string k0 ++ EQ :: MASK) with (p ++ MASK)
      by (rewrite <- p_key, <- app_assoc; reflexivity).
    replace ((of_string k0 ++ EQ :: of_string v) ++ Y) with (p ++ c :: w ++ Y)
      by (rewrite <- p_key, Hv, <- !app_assoc; reflexivity).
    destruct HY as [-> | [Y' ->]].
    + rewrite (replace_all_some p _ [] []).
      * now rewrite replace_all_nil, !app_nil_r.
      * unfold match_at. rewrite strip_prefix_app. simpl. rewrite Hc.
        now rewrite match_tail_clean_app.
    + rewrite (replace_all_some p _ [SEMI] Y').
      * rewrite <- !app_assoc. f_equal. f_equal.
        change (SEMI :: Y') with ([SEMI] ++ Y').
        rewrite (replace_all_copy h p' [SEMI] Y'); [reflexivity|].
        simpl. simpl in p_plain. apply andb_true_iff in p_plain as [Hh _].
        apply plain_clean, clean_inv in Hh as [_ Hh]. now rewrite Hh.
      * unfold match_at. rewrite strip_prefix_app. simpl. rewrite Hc.
        rewrite match_tail_clean_app by assumption. reflexivity.
  - apply negb_true_iff in Hok.
    now apply replace_all_no_occurrence.
Qed.

Lemma replace_all_render l :
  forallb ok l = true ->
  replace_all p (render l) = render (map (mask_key k0) l).
Proof.
  induction l as [|kv l IH]; intros H; [apply replace_all_nil|].
  simpl in H. apply andb_true_iff in H as [Hkv Hl].
  destruct l as [|kv2 l].
  - simpl. rewrite <- (app_nil_r (render_pair kv)).
    rewrite replace_all_pair; [|assumption|now left].
    now rewrite replace_all_nil, !app_nil_r.
  - change (render (kv :: kv2 :: l))
      with (render_pair kv ++ SEMI :: SPACE :: render (kv2 :: l)).
    rewrite replace_all_pair; [|assumption|right; eauto].
    rewrite replace_all_separator, (IH Hl). reflexivity.
Qed.

End Pass.

Lemma pair_ok_sid kv : pair_ok kv = true -> ok_for "sid" SID kv = true.
Proof.
  unfold pair_ok, ok_for. destruct (String.eqb (fst kv) "sid"); [easy|].
  destruct (String.eqb (fst kv) "rm"); intros H;
    apply andb_true_iff in H; tauto.
Qed.

Lemma pair_ok_rm kv :
  pair_ok kv = true -> ok_for "rm" RM (mask_key "sid" kv) = true.
Proof.
  unfold pair_ok, ok_for, mask_key.
  destruct (String.eqb (fst kv) "sid") eqn:E1.
  - apply String.eqb_eq in E1. cbn [fst snd]. rewrite E1. reflexivity.
  - destruct (String.eqb (fst kv) "rm"); intros H;
      apply andb_true_iff in H; tauto.
Qed.

Lemma mask_pair_two_keys kv : mask_key "rm" (mask_key "sid" kv) = mask_pair kv.
Proof.
  unfold mask_key, mask_pair.
  destruct (String.eqb (fst kv) "sid") eqn:E1; simpl.
  - apply String.eqb_eq in E1. now rewrite E1.
  - reflexivity.
Qed.

Lemma redact_render l :
  cookie_ok l = true -> redact (render l) = render (map mask_pair l).
Proof.
  intros H. unfold redact.
  rewrite (replace_all_render "sid" "s"%char (of_string "id="));
    try reflexivity.
  - rewrite (replace_all_render "rm" "r"%char (of_string "m="));
      try reflexivity.
    + rewrite map_map. f_equal. apply map_ext, mask_pair_two_keys.
    + unfold cookie_ok in H.
      rewrite forallb_forall in H |- *. intros kv' Hin.
      apply in_map_iff in Hin as [kv [<- Hin]]. apply pair_ok_rm, H, Hin.
  - unfold cookie_ok in H.
    rewrite forallb_forall in H |- *. intros kv Hin. apply pair_ok_sid, H, Hin.
Qed.

Lemma of_to_string l : of_string (to_string l) = l.
Proof. apply list_ascii_of_string_of_list_ascii. Qed.

End CookieFacts.

(* ===================================================================== *)
(** ** The facade: sink selection, [json], [log] and the request hooks    *)
(* ===================================================================== *)

Module Facade.
Import JS NodeLogger Notions.

Local Open Scope string_scope.
Local Open Scope list_scope.

Lemma bind_ret {A B : Type} (a : A) (k : A -> M B) : bind (ret a) k = k a.
Proof. unfold bind, ret. now destruct (k a). Qed.

Lemma bind_throw {A B : Type} (e : exn) (k : A -> M B) : bind (throw e) k = throw e.
Proof. reflexivity. Qed.

Lemma bind_lift_ret {A B : Type} (a : A) (k : A -> M B) : bind ([], Ret a) k = k a.
Proof. apply bind_ret. Qed.

Lemma bind_ret_inv {A B : Type} (m : M A) (k : A -> M B) (b : B) :
  bind m k = ret b -> exists a, m = ret a /\ k a = ret b.
Proof.
  destruct m as [t [a|e]]; unfold bind, ret; [|discriminate].
  destruct (k a) as [t' o] eqn:E. intros H. injection H as Ht ->.
  apply app_eq_nil in Ht as [-> ->]. now exists a.
Qed.

(** The logger the constructor returns keeps the settings it was given, or
    those of the logger it was given. *)
Lemma construct_returns Bunyan fields_of settings c :
  construct Bunyan fields_of settings = ret c ->
  exists state,
    c = VInst CNodeLogger
          [(if is_logger settings then _settings settings else settings); state].
Proof.
  unfold construct. intros H.
  apply bind_ret_inv in H as (o & _ & H).
  apply bind_ret_inv in H as (state & _ & H).
  injection H as <-. now exists state.
Qed.

Lemma child_returns Bunyan fields_of l options c :
  is_logger l = true ->
  child Bunyan fields_of l options = ret c ->
  is_logger c = true /\ _settings c = _settings l.
Proof.
  intros Hl H. unfold child in H.
  apply construct_returns in H as [state ->]. rewrite Hl. now split.
Qed.

Lemma lookup_obj_set kvs k v : lookup k (obj_set kvs k v) = Some v.
Proof.
  induction kvs as [|[k' v'] kvs IH]; simpl.
  - now rewrite String.eqb_refl.
  - destruct (String.eqb k k') eqn:E; simpl; now rewrite E.
Qed.

Lemma lookup_obj_set_other kvs k k' v :
  String.eqb k' k = false -> lookup k' (obj_set kvs k v) = lookup k' kvs.
Proof.
  intros Hk. induction kvs as [|[k0 v0] kvs IH]; simpl.
  - now rewrite Hk.
  - destruct (String.eqb k k0) eqn:E; simpl.
    + apply String.eqb_eq in E. subst k0. now rewrite Hk.
    + now rewrite IH.
Qed.

(** *** Sink selection *)

(** C1, as stated, fails: with [isMapper] set and one explicit binding in
    [streams], the options carry the mapper binding and not the explicit one. *)
Lemma init_streams_do_not_win :
  truthy (prop both_configured "isMapper") = true /\
  prop both_configured "streams" = VArr [user_binding] /\
  streams_of (_init (VObj both_configured))
    = Some [convenience_binding both_configured] /\
  streams_of (_init (VObj both_configured)) <> Some [user_binding].
Proof. repeat split. discriminate. Qed.

(** C1, amended: exactly one of three paths fills the sink list.  With
    [isMapper] set it is the convenience binding (a trim stream with [isTrim],
    a mapper stream without), whatever [streams] holds; without [isMapper] and
    with a non-empty [streams] list it is that list; otherwise it is the
    default binding. *)
Theorem init_sink_selection (kvs : list (string * value)) :
  (truthy (prop kvs "isMapper") = true ->
   streams_of (_init (VObj kvs)) = Some [convenience_binding kvs]) /\
  (truthy (prop kvs "isMapper") = false ->
   forall l, prop kvs "streams" = VArr l -> l <> [] ->
   streams_of (_init (VObj kvs)) = Some l) /\
  (truthy (prop kvs "isMapper") = false ->
   truthy (prop kvs "streams") = false \/ prop kvs "streams" = VArr [] ->
   streams_of (_init (VObj kvs)) = Some [default_binding kvs]).
Proof.
  unfold _init, _createStream, convenience_binding, default_binding, prop.
  cbn [get bind ret].
  destruct (truthy (or_undefined (lookup "isMapper" kvs))) eqn:Em.
  - split; [intros _ | split; discriminate].
    cbn. now destruct (truthy (or_undefined (lookup "isTrim" kvs))).
  - split; [discriminate | split].
    + intros _ l Hl Hne. rewrite Hl. destruct l as [|x l]; [easy|].
      cbn [truthy get String.eqb Ascii.eqb Bool.eqb bind ret].
      assert (Hg : gt0 (VNum (Z.of_nat (List.length (x :: l)))) = ret true).
      { unfold gt0.
        assert (E : (0 <? Z.of_nat (List.length (x :: l)))%Z = true)
          by (apply Z.ltb_lt; simpl List.length; lia).
        now rewrite E. }
      rewrite Hg. reflexivity.
    + intros _ [Hf | He].
      * rewrite Hf. reflexivity.
      * rewrite He. reflexivity.
Qed.

Lemma init_sink_selection_witness :
  streams_of (_init (VObj both_configured))
    = Some [convenience_binding both_configured] /\
  streams_of (_init (VObj [("streams", VArr [user_binding])]))
    = Some [user_binding] /\
  streams_of (_init (VObj [("level", VStr "debug")]))
    = Some [default_binding [("level", VStr "debug")]].
Proof.
  split; [|split].
  - apply (proj1 (init_sink_selection both_configured)). reflexivity.
  - apply (proj1 (proj2 (init_sink_selection [("streams", VArr [user_binding])])));
      [reflexivity | reflexivity | discriminate].
  - apply (proj2 (proj2 (init_sink_selection [("level", VStr "debug")])));
      [reflexivity | left; reflexivity].
Defined.

(** *** [json] and [log] *)

(** C5: with [isJSON] off, [json] calls the engine for no payload and no
    argument list, and returns. *)
Theorem json_disabled_is_silent (this args : value) (rest : list value) (j : value) :
  get (_settings this) "isJSON" = ret j ->
  truthy j = false ->
  json this args rest = ([], Ret tt).
Proof.
  intros Hj Hf. unfold json. rewrite Hj. cbn [bind ret]. rewrite Hf. reflexivity.
Qed.

Lemma json_disabled_is_silent_witness :
  json (a_logger false) (VObj [("msg", VStr "hello"); ("level", VNum 30)])
       [VStr "EVENT"; VNum 1]
  = ([], Ret tt).
Proof.
  apply (json_disabled_is_silent (a_logger false) _ _ (VBool false));
    reflexivity.
Defined.

(** C6: with [isJSON] on, [json] makes one call to the engine, and the fields
    of that call carry [level = 70], for a string and for a structured
    payload, whatever [level] the payload brought. *)
Theorem json_level_is_notice (this args : value) (rest : list value) (j : value) :
  get (_settings this) "isJSON" = ret j ->
  truthy j = true ->
  json this args rest
    = ([EInfo this (VObj (json_fields args)) (json_msg args rest)], Ret tt) /\
  lookup "level" (json_fields args) = Some (VNum 70).
Proof.
  intros Hj Ht. unfold json, json_fields, json_msg.
  rewrite Hj. cbn [bind ret]. rewrite Ht. cbn [negb].
  destruct (is_string args) eqn:Es; cbn.
  - split; reflexivity.
  - split; [reflexivity | apply lookup_obj_set].
Qed.

Lemma json_level_is_notice_witness :
  json (a_logger true) (VObj [("level", VNum 30); ("msg", VStr "hello")]) [VStr "EVENT"]
    = ([EInfo (a_logger true)
              (VObj [("level", VNum 70); ("msg", VStr "hello")]) (VStr "EVENT")],
       Ret tt) /\
  json (a_logger true) (VStr "hello") []
    = ([EInfo (a_logger true) (VObj [("level", VNum 70)]) (VStr "hello")], Ret tt).
Proof.
  split.
  - exact (proj1 (json_level_is_notice (a_logger true) _ _ (VBool true)
                    eq_refl eq_refl)).
  - exact (proj1 (json_level_is_notice (a_logger true) (VStr "hello") []
                    (VBool true) eq_refl eq_refl)).
Defined.

(** C10: the rest parameter is an array, so [log] takes the branch of
    [Array.isArray] on every call and the spread before it decides nothing:
    [log(arg, ...rest)] is [json({ stringData: { [rest[0]]: rest[1] } }, arg)],
    and without rest arguments the key is the text [undefined]. *)
Theorem log_is_json_of_pair (this a : value) (rest : list value) :
  log this a rest = log_spec this a rest /\
  log this a []
    = json this (VObj [("stringData", VObj [("undefined", VUndefined)])]) [a].
Proof. split; reflexivity. Qed.

(** *** The request hooks *)

(** C2, the failing inputs: on a request without a request id or without a
    start time the hook calls [next()] with no argument, for every error: the
    error does not reach the next error handler. *)
Theorem exception_hook_drops_error
    (elapsed : value -> option value) (err req res rid start : value) :
  get req "requestId" = ret rid ->
  get req "timeStart" = ret start ->
  truthy rid && truthy start = false ->
  middlewareExceptionResponse elapsed err req res = ([ENext None], Ret tt).
Proof.
  intros Hr Hs Hf.
  unfold middlewareExceptionResponse, no_context.
  rewrite Hr, bind_ret.
  destruct (truthy rid); cbn [negb]; [|now rewrite bind_ret].
  rewrite Hs, !bind_ret. cbn [andb] in Hf. rewrite Hf. reflexivity.
Qed.

Lemma exception_hook_drops_error_witness :
  middlewareExceptionResponse five_ms not_found bare_request (a_response VUndefined)
  = ([ENext None], Ret tt).
Proof.
  apply (exception_hook_drops_error five_ms not_found bare_request
           (a_response VUndefined) VUndefined VUndefined); reflexivity.
Defined.

(** The other path of the same hook hands the error on. *)
Lemma exception_hook_forwards_error :
  middlewareExceptionResponse five_ms not_found
    (VObj [("requestId", VStr "r1"); ("timeStart", VArr [VNum 1; VNum 0]);
           ("log", a_logger true)])
    (a_response VUndefined)
  = ([EInfo (a_logger true)
        (VObj [("secureJsonData",
                VObj [("error", VObj [("code", VNum 404); ("name", VStr "NotFound");
                                      ("message", VStr "missing")]);
                      ("meta", VObj [("requestId", VStr "r1"); ("time", VNum 5)])]);
               ("level", VNum 70)])
        (VStr "EXCEPTION_RESPONSE");
      ENext (Some not_found)],
     Ret tt).
Proof. reflexivity. Qed.

(** C3, as stated, fails: with the header [x-request-id: abc-123] on the
    request, and a response that has [setHeader], the hook never calls
    [setHeader]: the response carries no correlation header.  The one record
    it emits has two fields, [req] and [level], and no [meta]; the request in
    it carries the header's value as [requestId]; and the logger it goes
    through is the one the constructor makes of the parent alone. *)
Lemma request_start_sets_no_header :
  exists c req',
    construct accepting bare (a_logger true) = ret c /\
    middleware accepting bare "generated" (a_logger true) request_with_id
      (server_response VUndefined)
    = ([EInfo c (VObj [("req", req'); ("level", VNum 70)]) (VStr "INCOMING_REQUEST");
        ENext None],
       Ret req') /\
    get req' "requestId" = ret (VStr "abc-123") /\
    get (VObj [("req", req'); ("level", VNum 70)]) "meta" = ret VUndefined /\
    existsb is_set_header
      (trace (middleware accepting bare "generated" (a_logger true) request_with_id
                (server_response VUndefined)))
    = false.
Proof. do 2 eexists. repeat split. Qed.

(** C3, amended: with an inbound correlation header the hook takes its value
    as the request id and stores it on the request; with [isJSON] on it emits,
    through the logger [child] returned, one incoming-request record whose
    [req] is that request; it calls [next] and it never calls [setHeader].
    (It calls [setHeader], with the identifier it drew, only when the header
    is absent.) *)
Theorem request_start_reuses_inbound_id
    (Bunyan : value -> outcome value) (fields_of : value -> value) (uuid : string)
    (logger c : value) (kvs : list (string * value)) (headers h j res : value) :
  lookup "headers" kvs = Some headers ->
  get headers "x-request-id" = ret h ->
  truthy h = true ->
  is_logger logger = true ->
  child Bunyan fields_of logger (child_options h) = ret c ->
  get (_settings logger) "isJSON" = ret j ->
  let req' := started kvs h c in
  get req' "requestId" = ret h /\
  middleware Bunyan fields_of uuid logger (VObj kvs) res
  = ((if truthy j
      then [EInfo c (VObj [("req", req'); ("level", VNum 70)])
                  (VStr INCOMING_REQUEST_POSTFIX)]
      else [])
     ++ [ENext None],
     Ret req').
Proof.
  intros Hh Hid Ht Hl Hc Hj req'. subst req'. split.
  { unfold started. cbn [get].
    rewrite lookup_obj_set_other by reflexivity. now rewrite lookup_obj_set. }
  assert (Hget : get (VObj kvs) "headers" = ret headers)
    by (cbn [get]; now rewrite Hh).
  destruct (child_returns _ _ _ _ _ Hl Hc) as [Hlc Hsc].
  unfold child_options in Hc.
  unfold middleware, _setLogMeta.
  rewrite Hget, bind_ret, Hid, bind_ret, Ht. cbn [negb].
  rewrite !bind_ret. cbn [set]. rewrite bind_ret.
  rewrite Hc, !bind_ret.
  cbn [set]. rewrite bind_ret.
  cbn [get]. rewrite lookup_obj_set. cbn [or_undefined]. rewrite bind_ret.
  unfold call_json. rewrite Hlc.
  unfold json. rewrite Hsc, Hj, bind_ret.
  unfold started.
  destruct (truthy j); reflexivity.
Qed.

Lemma request_start_reuses_inbound_id_witness :
  middleware accepting bare "generated" (a_logger true) request_with_id
    (server_response VUndefined)
  = ([EInfo (a_child true)
        (VObj [("req",
                VObj [("url", VStr "/"); ("method", VStr "GET");
                      ("headers", VObj [("x-request-id", VStr "abc-123")]);
                      ("requestId", VStr "abc-123");
                      ("log", a_child true)]);
               ("level", VNum 70)])
        (VStr "INCOMING_REQUEST");
      ENext None],
     Ret (VObj [("url", VStr "/"); ("method", VStr "GET");
                ("headers", VObj [("x-request-id", VStr "abc-123")]);
                ("requestId", VStr "abc-123");
                ("log", a_child true)])).
Proof.
  exact (proj2 (request_start_reuses_inbound_id accepting bare "generated"
           (a_logger true) (a_child true)
           [("url", VStr "/"); ("method", VStr "GET");
            ("headers", VObj [("x-request-id", VStr "abc-123")])]
           (VObj [("x-request-id", VStr "abc-123")]) (VStr "abc-123") (VBool true)
           (server_response VUndefined)
           eq_refl eq_refl eq_refl eq_refl eq_refl eq_refl)).
Defined.

(** Without the header the hook draws an identifier and sets it on the
    response. *)
Lemma request_start_generates_id :
  trace (middleware accepting bare "generated" (a_logger false) bare_request
           (server_response VUndefined))
  = [ESetHeader "x-request-id" (VStr "generated"); ENext None].
Proof. reflexivity. Qed.

(** C4: with a request id and a start time on the request and [null] as the
    result, the hook throws: the guard lets [null] through and the read of
    [stream] on it fails.  Nothing is emitted and [next] is not called. *)
Theorem success_hook_throws_on_null
    (elapsed : value -> option value) (req res rid start : value) :
  get req "requestId" = ret rid -> truthy rid = true ->
  get req "timeStart" = ret start -> truthy start = true ->
  get res "result" = ret VNull ->
  middlewareSuccessfulResponse elapsed req res = ([], Threw TypeError).
Proof.
  intros Hr Hrt Hs Hst Hn.
  unfold middlewareSuccessfulResponse, no_context, hrtimeToMs.
  rewrite Hr, bind_ret, Hrt. cbn [negb].
  rewrite Hs, !bind_ret, Hst. cbn [negb].
  destruct (elapsed start); [|reflexivity].
  rewrite bind_ret, Hn, bind_ret. reflexivity.
Qed.

Lemma success_hook_throws_on_null_witness :
  middlewareSuccessfulResponse five_ms request_in_flight (a_response VNull)
  = ([], Threw TypeError).
Proof.
  apply (success_hook_throws_on_null five_ms request_in_flight (a_response VNull)
           (VStr "r1") (VArr [VNum 1; VNum 0])); reflexivity.
Defined.

(** C7: the hook emits nothing for a result with a truthy [stream]: with a
    request id and a start time on the request it makes no call to the engine,
    and, the timer having answered, it calls [next] and nothing else; and it
    emits nothing, and calls [next], when the start time is unset. *)
Theorem success_hook_skips_streams
    (elapsed : value -> option value) (req res rid start : value) :
  get req "requestId" = ret rid ->
  get req "timeStart" = ret start ->
  (truthy rid = true -> truthy start = true ->
   forall r stream, get res "result" = ret r -> get r "stream" = ret stream ->
   truthy stream = true ->
   existsb is_info (trace (middlewareSuccessfulResponse elapsed req res)) = false /\
   forall ms, elapsed start = Some ms ->
     middlewareSuccessfulResponse elapsed req res = ([ENext None], Ret tt)) /\
  (truthy start = false ->
   middlewareSuccessfulResponse elapsed req res = ([ENext None], Ret tt)).
Proof.
  intros Hr Hs.
  unfold middlewareSuccessfulResponse, no_context, hrtimeToMs.
  rewrite Hr, bind_ret, Hs.
  split.
  - intros Hrt Hst r stream Hres Hstream Ht.
    rewrite Hrt. cbn [negb]. rewrite !bind_ret, Hst. cbn [negb].
    rewrite Hres.
    assert (Hgo : forall ms,
      (time <- ret ms ;; r0 <- ret r ;;
       (if negb (truthy r0) && negb (is_null r0) then next
        else stream0 <- get r0 "stream" ;;
             (if truthy stream0 then next
              else l <- get req "log" ;; requestId <- ret rid ;;
                   call_json l
                     (VObj [("secureJsonData",
                             VObj [("code", VNum 200); ("result", r0);
                                   ("meta", VObj [("requestId", requestId);
                                                  ("time", time)])])])
                     [VStr SUCCESSFUL_RESPONSE_POSTFIX] ;; next)))
      = ([ENext None], Ret tt)).
    { intros ms. rewrite !bind_ret.
      destruct (negb (truthy r) && negb (is_null r)); [reflexivity|].
      rewrite Hstream, bind_ret, Ht. reflexivity. }
    split.
    + destruct (elapsed start) as [ms|]; [|reflexivity].
      now rewrite (Hgo ms).
    + intros ms Hms. rewrite Hms. apply Hgo.
  - intros Hst.
    destruct (truthy rid); cbn [negb]; rewrite !bind_ret; [|reflexivity].
    rewrite Hst. reflexivity.
Qed.

Lemma success_hook_skips_streams_witness :
  middlewareSuccessfulResponse five_ms request_in_flight (a_response streaming)
    = ([ENext None], Ret tt) /\
  middlewareSuccessfulResponse five_ms
    (VObj [("requestId", VStr "r1"); ("log", a_logger true)])
    (a_response (VStr "done"))
    = ([ENext None], Ret tt).
Proof.
  split.
  - refine (proj2 (proj1 (success_hook_skips_streams five_ms request_in_flight
               (a_response streaming) (VStr "r1") (VArr [VNum 1; VNum 0])
               eq_refl eq_refl) eq_refl eq_refl streaming (VInst CBaseStream [])
               eq_refl eq_refl eq_refl) (VNum 5) eq_refl).
  - refine (proj2 (success_hook_skips_streams five_ms
               (VObj [("requestId", VStr "r1"); ("log", a_logger true)])
               (a_response (VStr "done")) (VStr "r1") VUndefined
               eq_refl eq_refl) eq_refl).
Defined.

(** A result without [stream] is emitted, with the request id and the time. *)
Lemma success_hook_emits_result :
  middlewareSuccessfulResponse five_ms request_in_flight (a_response (VStr "done"))
  = ([EInfo (a_logger true)
        (VObj [("secureJsonData",
                VObj [("code", VNum 200); ("result", VStr "done");
                      ("meta", VObj [("requestId", VStr "r1"); ("time", VNum 5)])]);
               ("level", VNum 70)])
        (VStr "SUCCESSFUL_RESPONSE");
      ENext None],
     Ret tt).
Proof. reflexivity. Qed.

(** *** The header serializer *)

Lemma obj_set_fresh kvs k v :
  ~ In k (map fst kvs) -> obj_set kvs k v = kvs ++ [(k, v)].
Proof.
  induction kvs as [|[k' v'] kvs IH]; simpl; intros H; [reflexivity|].
  destruct (String.eqb k k') eqn:E.
  - apply String.eqb_eq in E. subst k'. tauto.
  - rewrite IH; tauto.
Qed.

Lemma obj_set_same kvs k v : lookup k kvs = Some v -> obj_set kvs k v = kvs.
Proof.
  induction kvs as [|[k' v'] kvs IH]; simpl; [discriminate|].
  destruct (String.eqb k k'); intros H.
  - now injection H as ->.
  - now rewrite IH.
Qed.

Lemma obj_set_keys kvs k v x :
  lookup k kvs = Some x -> map fst (obj_set kvs k v) = map fst kvs.
Proof.
  induction kvs as [|[k' v'] kvs IH]; simpl; [discriminate|].
  destruct (String.eqb k k'); intros H; simpl; [reflexivity|].
  now rewrite IH.
Qed.

Lemma obj_set_nodup kvs k v :
  NoDup (map fst kvs) -> NoDup (map fst (obj_set kvs k v)).
Proof.
  intros H. destruct (lookup k kvs) as [x|] eqn:E.
  - now rewrite (obj_set_keys _ _ _ _ E).
  - assert (Hn : ~ In k (map fst kvs)).
    { clear H. induction kvs as [|[k' v'] kvs IH]; simpl in *; [tauto|].
      destruct (String.eqb k k') eqn:Ek; [discriminate|].
      apply String.eqb_neq in Ek. intros [<- | Hin]; [tauto | now apply IH]. }
    rewrite (obj_set_fresh _ _ _ Hn), map_app. simpl.
    apply NoDup_app; [assumption | repeat constructor; simpl; tauto |].
    intros a Ha [<- | []]. tauto.
Qed.

Lemma fold_put_nodup l : forall acc,
  NoDup (map fst acc) -> NoDup (map fst (fold_left put l acc)).
Proof.
  induction l as [|kv l IH]; intros acc H; simpl; [assumption|].
  apply IH, obj_set_nodup, H.
Qed.

Lemma fold_put_id l : forall acc,
  NoDup (map fst (acc ++ l)) -> fold_left put l acc = acc ++ l.
Proof.
  induction l as [|[k v] l IH]; intros acc H; simpl; [now rewrite app_nil_r|].
  unfold put at 2. cbn [fst snd].
  rewrite obj_set_fresh.
  - rewrite IH; rewrite <- app_assoc; [reflexivity | exact H].
  - rewrite map_app in H. simpl in H. apply NoDup_remove_2 in H.
    intros Hin. apply H, in_or_app. now left.
Qed.

(** The copy [{ ...o }] of an object whose keys are distinct is that object. *)
Lemma spread_nodup kvs : NoDup (map fst kvs) -> spread (VObj kvs) = VObj kvs.
Proof.
  intros H. unfold spread. cbn [own_props]. f_equal.
  apply (fold_put_id kvs []). exact H.
Qed.

Lemma spread_keys_nodup v : exists kvs, spread v = VObj kvs /\ NoDup (map fst kvs).
Proof.
  eexists. split; [reflexivity|].
  apply (fold_put_nodup (own_props v) []). constructor.
Qed.

Lemma redact_cookie_idem s :
  Cookie.redact_cookie (Cookie.redact_cookie s) = Cookie.redact_cookie s.
Proof.
  unfold Cookie.redact_cookie.
  now rewrite CookieFacts.of_to_string, CookieFacts.redact_idem.
Qed.

Lemma header_steps headers kvs :
  spread headers = VObj kvs ->
  header headers = bind (cookie_step kvs) authorization_step.
Proof.
  intros H. unfold header, cookie_step. rewrite H. cbn [get].
  rewrite !bind_ret. reflexivity.
Qed.

Lemma cookie_step_done kvs :
  cookie_done (lookup "cookie" kvs) -> cookie_step kvs = ret (VObj kvs).
Proof.
  unfold cookie_step. cbn [get]. rewrite bind_ret.
  destruct (lookup "cookie" kvs) as [c|] eqn:E; cbn [or_undefined cookie_done];
    [|reflexivity].
  destruct c; intros H; try (rewrite H; reflexivity).
  destruct (truthy (VStr s)); [|reflexivity].
  cbn [replace_cookie]. rewrite bind_ret, H. cbn [set].
  now rewrite (obj_set_same _ _ _ E).
Qed.

Lemma cookie_step_result kvs h :
  cookie_step kvs = ret h ->
  exists kvs1, h = VObj kvs1 /\ map fst kvs1 = map fst kvs /\
               cookie_done (lookup "cookie" kvs1).
Proof.
  unfold cookie_step. cbn [get]. rewrite bind_ret.
  destruct (lookup "cookie" kvs) as [c|] eqn:E; cbn [or_undefined].
  - destruct (truthy c) eqn:T.
    + destruct c; try discriminate. cbn [replace_cookie].
      rewrite bind_ret. cbn [set]. intros H. injection H as <-.
      eexists. split; [reflexivity|]. split; [eapply obj_set_keys, E|].
      rewrite lookup_obj_set. apply redact_cookie_idem.
    + intros H. injection H as <-. exists kvs. repeat split. rewrite E.
      destruct c; try exact T.
      destruct s; [reflexivity | discriminate].
  - intros H. injection H as <-. exists kvs. repeat split. now rewrite E.
Qed.

Lemma authorization_step_done kvs :
  authorization_done (lookup "authorization" kvs) ->
  authorization_step (VObj kvs) = ret (VObj kvs).
Proof.
  unfold authorization_step. cbn [get]. rewrite bind_ret.
  destruct (lookup "authorization" kvs) as [a|] eqn:E;
    cbn [or_undefined authorization_done]; [|reflexivity].
  intros [H | ->]; [now rewrite H|].
  cbn [truthy set]. cbn. now rewrite (obj_set_same _ _ _ E).
Qed.

Lemma authorization_step_result kvs :
  exists kvs2, authorization_step (VObj kvs) = ret (VObj kvs2) /\
               map fst kvs2 = map fst kvs /\
               authorization_done (lookup "authorization" kvs2) /\
               lookup "cookie" kvs2 = lookup "cookie" kvs.
Proof.
  unfold authorization_step. cbn [get]. rewrite bind_ret.
  destruct (lookup "authorization" kvs) as [a|] eqn:E; cbn [or_undefined].
  - destruct (truthy a) eqn:T.
    + cbn [set]. eexists. split; [reflexivity|]. split; [eapply obj_set_keys, E|].
      split; [rewrite lookup_obj_set; now right|].
      now apply lookup_obj_set_other.
    + exists kvs. repeat split. rewrite E. now left.
  - exists kvs. repeat split. now rewrite E.
Qed.

(** [header] applied to its own result returns it. *)
Lemma header_idem headers h' : header headers = ret h' -> header h' = ret h'.
Proof.
  destruct (spread_keys_nodup headers) as (kvs & Hs & Hn).
  rewrite (header_steps _ _ Hs). intros H.
  apply bind_ret_inv in H as (h1 & Hc & Ha).
  apply cookie_step_result in Hc as (kvs1 & -> & Hk1 & Hd1).
  destruct (authorization_step_result kvs1) as (kvs2 & Ha2 & Hk2 & Hd2 & Hc2).
  rewrite Ha2 in Ha. injection Ha as <-.
  rewrite (header_steps _ kvs2).
  - rewrite cookie_step_done by (now rewrite Hc2).
    rewrite bind_ret. now apply authorization_step_done.
  - apply spread_nodup. now rewrite Hk2, Hk1.
Qed.

(** On headers that hold a cookie and nothing else, [header] is the redactor. *)
Lemma header_cookie_only c s :
  header (VObj [("cookie", VStr (String c s))])
  = ret (VObj [("cookie", VStr (Cookie.redact_cookie (String c s)))]).
Proof. reflexivity. Qed.

(** An authorization is replaced by the mask, whatever its scheme. *)
Lemma header_authorization_only c s :
  header (VObj [("authorization", VStr (String c s))])
  = ret (VObj [("authorization", VStr HEADER_AUTHORIZATION_PATTERN)]).
Proof. reflexivity. Qed.


(** An empty value makes the expression take the next pair for the value. *)
Lemma redact_empty_value_takes_next_pair :
  Cookie.redact_cookie "sid=; a=1; b=2" = "sid=***; b=2".
Proof. reflexivity. Qed.



(** *** The network sink *)

Lemma write_accepted _map JSON_stringify record :
  accepted _map JSON_stringify record = true ->
  GelfStream.write _map JSON_stringify record
  = (wire _map JSON_stringify record, Ret tt) /\
  List.length (wire _map JSON_stringify record) = 1.
Proof.
  unfold accepted, wire, GelfStream.write, lift.
  destruct (_map record) as [mapped|e]; [|discriminate].
  rewrite bind_lift_ret.
  destruct (JSON_stringify mapped) as [text|e]; [|discriminate].
  intros _. now split.
Qed.

Lemma write_all_accepted _map JSON_stringify records :
  forallb (accepted _map JSON_stringify) records = true ->
  GelfStream.write_all _map JSON_stringify records
  = (flat_map (wire _map JSON_stringify) records, Ret tt) /\
  List.length (flat_map (wire _map JSON_stringify) records) = List.length records.
Proof.
  induction records as [|r rest IH]; [now split|].
  cbn [forallb]. intros H. apply andb_true_iff in H as [Hr Hrest].
  destruct (IH Hrest) as [IHw IHl].
  destruct (write_accepted _ _ _ Hr) as [Hw Hl].
  cbn [GelfStream.write_all flat_map]. rewrite Hw, IHw. split; [reflexivity|].
  rewrite length_app, Hl, IHl. reflexivity.
Qed.




End Facade.

(* ===================================================================== *)
(** ** Further properties of the serializers, the hooks and construction  *)
(* ===================================================================== *)

Module Properties.
Import JS NodeLogger Notions Facade.

Local Open Scope string_scope.
Local Open Scope list_scope.

(** *** Notions *)

(** The second step of [header], on the properties of the copy. *)
Definition mask_authorization (kvs : list (string * value)) : list (string * value) :=
  if truthy (prop kvs "authorization")
  then obj_set kvs "authorization" (VStr HEADER_AUTHORIZATION_PATTERN)
  else kvs.

(** The calls of [next] among the events of a hook. *)
Definition is_next (e : event) : bool :=
  match e with ENext _ => true | _ => false end.

(** A computation that never calls [next]. *)
Definition quiet {A : Type} (m : M A) : Prop :=
  existsb is_next (trace m) = false.

(** The contract of a hook with the framework: when it returns it has called
    [next] once, as its last call; when it throws it has not called it. *)
Definition next_once {A : Type} (m : M A) : Prop :=
  match m with
  | (t, Ret _) => exists pre e, t = pre ++ [ENext e] /\ existsb is_next pre = false
  | (t, Threw _) => existsb is_next t = false
  end.

(** A computation that leaves no event at all. *)
Definition silent {A : Type} (m : M A) : Prop := trace m = [].

(** [undefined] and [null], on which a method call throws. *)
Definition is_nullish (v : value) : bool :=
  match v with VUndefined | VNull => true | _ => false end.

(** The record [json] leaves on the engine for a structured payload, and
    nothing when [isJSON] is off. *)
Definition emitted (l j : value) (payload : list (string * value)) (name : string)
  : list event :=
  if truthy j
  then [EInfo l (VObj (payload ++ [("level", VNum 70)])) (VStr name)]
  else [].

(** The serializer registry [_init] hands to the engine. *)
Definition registry (kvs : list (string * value)) : value :=
  if truthy (prop kvs "serializers")
  then assign Serializers (prop kvs "serializers")
  else Serializers.

(** The options [_init] returns around a list of bindings. *)
Definition options_with (kvs : list (string * value)) (bindings : list value) : value :=
  VObj [("name", or_else (prop kvs "name") (VStr DEFAULT_NAME_AND_TYPE));
        ("type", or_else (prop kvs "type") (VStr DEFAULT_NAME_AND_TYPE));
        ("streams", VArr bindings);
        ("serializers", registry kvs)].

(** Settings on which the sink list can be built: the mapper path, no
    [streams], or [streams] that can be spread. *)
Definition streams_usable (kvs : list (string * value)) : bool :=
  truthy (prop kvs "isMapper")
  || negb (truthy (prop kvs "streams"))
  || isArray (prop kvs "streams")
  || is_string (prop kvs "streams").

(** A line of descent: [l.child(o1).child(o2)...]. *)
Fixpoint descend (Bunyan : value -> outcome value) (fields_of : value -> value)
    (l : value) (options : list value) : M value :=
  match options with
  | [] => ret l
  | o :: rest => c <- child Bunyan fields_of l o ;; descend Bunyan fields_of c rest
  end.

(** *** The [header] and [req] serializers *)

Lemma spread_is_object v : exists kvs, spread v = VObj kvs.
Proof. eexists. reflexivity. Qed.

(** [header] in one piece, on the properties of the copy. *)
Lemma header_cases headers kvs :
  spread headers = VObj kvs ->
  header headers =
    match lookup "cookie" kvs with
    | Some (VStr s) =>
        if truthy (VStr s)
        then ret (VObj (mask_authorization
                          (obj_set kvs "cookie" (VStr (Cookie.redact_cookie s)))))
        else ret (VObj (mask_authorization kvs))
    | Some c => if truthy c then throw TypeError
                else ret (VObj (mask_authorization kvs))
    | None => ret (VObj (mask_authorization kvs))
    end.
Proof.
  intros H. unfold header. rewrite H. cbn [get]. rewrite bind_ret.
  assert (Hauth : forall l,
    (authorization <- get (VObj l) "authorization" ;;
     (if truthy authorization
      then set (VObj l) "authorization" (VStr HEADER_AUTHORIZATION_PATTERN)
      else ret (VObj l))) = ret (VObj (mask_authorization l))).
  { intros l. cbn [get]. rewrite bind_ret. unfold mask_authorization, prop.
    now destruct (truthy (or_undefined (lookup "authorization" l))). }
  destruct (lookup "cookie" kvs) as [c|]; cbn [or_undefined].
  - destruct c; try (destruct (truthy _); [reflexivity | rewrite bind_ret; apply Hauth]).
    destruct (truthy (VStr s)).
    + cbn [replace_cookie]. rewrite bind_ret. cbn [set]. rewrite bind_ret. apply Hauth.
    + rewrite bind_ret. apply Hauth.
  - cbn [truthy]. rewrite bind_ret. apply Hauth.
Qed.

Lemma lookup_mask_authorization l k :
  String.eqb k "authorization" = false ->
  lookup k (mask_authorization l) = lookup k l.
Proof.
  intros H. unfold mask_authorization.
  destruct (truthy (prop l "authorization")); [|reflexivity].
  now apply lookup_obj_set_other.
Qed.

Lemma keys_mask_authorization l : map fst (mask_authorization l) = map fst l.
Proof.
  unfold mask_authorization, prop.
  destruct (lookup "authorization" l) as [a|] eqn:E; cbn [or_undefined truthy];
    [|reflexivity].
  destruct (truthy a); [|reflexivity]. eapply obj_set_keys, E.
Qed.

(** What [header] returns, read against the copy of its argument. *)
Lemma header_result headers kvs h' :
  spread headers = VObj kvs -> header headers = ret h' ->
  exists l, h' = VObj (mask_authorization l) /\
            map fst l = map fst kvs /\
            (forall k, String.eqb k "cookie" = false -> lookup k l = lookup k kvs) /\
            lookup "cookie" l =
              match lookup "cookie" kvs with
              | Some (VStr s) => Some (VStr (Cookie.redact_cookie s))
              | o => o
              end.
Proof.
  intros Hs. rewrite (header_cases _ _ Hs).
  destruct (lookup "cookie" kvs) as [c|] eqn:Ec.
  - destruct c;
      try (destruct (truthy _); [discriminate|]; intros H; injection H as <-;
           exists kvs; rewrite Ec; now repeat split).
    destruct (truthy (VStr s)) eqn:T; intros H; injection H as <-.
    + eexists. split; [reflexivity|]. split; [eapply obj_set_keys, Ec|]. split.
      * intros k Hk. now apply lookup_obj_set_other.
      * apply lookup_obj_set.
    + exists kvs. rewrite Ec. repeat split.
      destruct s; [reflexivity | discriminate].
  - intros H; injection H as <-. exists kvs. rewrite Ec. now repeat split.
Qed.

(** X1: whatever the authorization holds, scheme and credentials, a truthy
    one leaves [header] as the mask. *)
Theorem header_masks_authorization (headers h' a : value) :
  header headers = ret h' ->
  get (spread headers) "authorization" = ret a ->
  truthy a = true ->
  get h' "authorization" = ret (VStr HEADER_AUTHORIZATION_PATTERN).
Proof.
  intros H Ha Ht. destruct (spread_is_object headers) as [kvs Hs].
  destruct (header_result _ _ _ Hs H) as (l & -> & _ & Ho & _).
  rewrite Hs in Ha. cbn [get] in Ha. injection Ha as Ha.
  cbn [get]. unfold mask_authorization, prop.
  rewrite (Ho "authorization" eq_refl), Ha, Ht.
  now rewrite lookup_obj_set.
Qed.

Lemma header_masks_authorization_witness :
  get (VObj [("host", VStr "a.example"); ("authorization", VStr "***")]) "authorization"
  = ret (VStr "***").
Proof.
  apply (header_masks_authorization
           (VObj [("host", VStr "a.example"); ("authorization", VStr "Bearer abc")])
           _ (VStr "Bearer abc")); reflexivity.
Defined.

(** X2: [header] returns an object with the property names of its argument,
    in their order, and every property other than [cookie] and
    [authorization] with the value it had. *)
Theorem header_keeps_other_fields (headers h' : value) :
  header headers = ret h' ->
  map fst (own_props h') = map fst (own_props (spread headers)) /\
  forall k, String.eqb k "cookie" = false -> String.eqb k "authorization" = false ->
            get h' k = get (spread headers) k.
Proof.
  intros H. destruct (spread_is_object headers) as [kvs Hs].
  destruct (header_result _ _ _ Hs H) as (l & -> & Hk & Ho & _).
  rewrite Hs. cbn [own_props get]. split.
  - now rewrite keys_mask_authorization.
  - intros k Hc Ha. now rewrite lookup_mask_authorization, Ho.
Qed.

Lemma header_keeps_other_fields_witness :
  get (VObj [("host", VStr "a.example"); ("cookie", VStr "sid=***")]) "host"
  = get (spread (VObj [("host", VStr "a.example"); ("cookie", VStr "sid=1")])) "host".
Proof.
  apply (proj2 (header_keeps_other_fields
                  (VObj [("host", VStr "a.example"); ("cookie", VStr "sid=1")])
                  _ eq_refl)); reflexivity.
Defined.



Lemma header_returns_on_string headers s :
  get (spread headers) "cookie" = ret (VStr s) -> exists h', header headers = ret h'.
Proof.
  intros Hc. destruct (spread_is_object headers) as [kvs Hs].
  rewrite Hs in Hc. cbn [get] in Hc. injection Hc as Hc.
  rewrite (header_cases _ _ Hs).
  destruct (lookup "cookie" kvs) as [c|]; cbn [or_undefined] in Hc; [|discriminate].
  subst c. destruct (truthy (VStr s)); eexists; reflexivity.
Qed.

(** X4: a cookie that is a string leaves [header] as the redacted string. *)
Theorem header_redacts_cookie (headers : value) (s : string) :
  get (spread headers) "cookie" = ret (VStr s) ->
  exists h', header headers = ret h' /\
             get h' "cookie" = ret (VStr (Cookie.redact_cookie s)).
Proof.
  intros Hc. destruct (spread_is_object headers) as [kvs Hs].
  destruct (header_returns_on_string _ _ Hc) as [h' H].
  exists h'. split; [exact H|].
  destruct (header_result _ _ _ Hs H) as (l & -> & _ & _ & Hl).
  rewrite Hs in Hc. cbn [get] in Hc. injection Hc as Hc.
  cbn [get]. rewrite lookup_mask_authorization by reflexivity. rewrite Hl.
  destruct (lookup "cookie" kvs) as [c|]; cbn [or_undefined] in Hc;
    [now subst c | discriminate].
Qed.

Lemma header_redacts_cookie_witness :
  exists h', header (VObj [("cookie", VStr "sid=abc; theme=dark")]) = ret h' /\
             get h' "cookie" = ret (VStr (Cookie.redact_cookie "sid=abc; theme=dark")).
Proof.
  apply (header_redacts_cookie (VObj [("cookie", VStr "sid=abc; theme=dark")])).
  reflexivity.
Defined.

(** What [req] returns. *)
Lemma req_result request r :
  req request = ret r ->
  exists url method hs h',
    get request "url" = ret url /\ get request "method" = ret method /\
    get request "headers" = ret hs /\ header hs = ret h' /\
    r = VObj [("url", url); ("method", method); ("headers", h')].
Proof.
  unfold req. intros H.
  apply bind_ret_inv in H as (url & Hu & H).
  apply bind_ret_inv in H as (method & Hm & H).
  apply bind_ret_inv in H as (hs & Hh & H).
  apply bind_ret_inv in H as (h' & Hh' & H).
  injection H as <-. now exists url, method, hs, h'.
Qed.

(** X5: what [req] returns holds [url], [method] and [headers] and no other
    field of the request, and [req] applied to it returns it again. *)
Theorem req_projects_and_is_idempotent (request r : value) :
  req request = ret r ->
  map fst (own_props r) = ["url"; "method"; "headers"] /\ req r = ret r.
Proof.
  intros H. destruct (req_result _ _ H) as (url & method & hs & h' & _ & _ & _ & Hh & ->).
  split; [reflexivity|].
  unfold req. cbn [get lookup String.eqb Ascii.eqb Bool.eqb or_undefined].
  rewrite !bind_ret. rewrite (header_idem _ _ Hh), bind_ret. reflexivity.
Qed.

Lemma req_projects_and_is_idempotent_witness :
  req (VObj [("url", VStr "/"); ("method", VStr "GET");
             ("headers", VObj [("cookie", VStr "sid=***")])])
  = ret (VObj [("url", VStr "/"); ("method", VStr "GET");
               ("headers", VObj [("cookie", VStr "sid=***")])]).
Proof.
  apply (proj2 (req_projects_and_is_idempotent
                  (VObj [("url", VStr "/"); ("method", VStr "GET");
                         ("headers", VObj [("cookie", VStr "sid=1")]);
                         ("body", VStr "secret")]) _ eq_refl)).
Defined.

(** *** The request hooks *)

Lemma silent_ret {A : Type} (a : A) : silent (ret a).
Proof. reflexivity. Qed.

Lemma silent_throw {A : Type} (e : exn) : silent (@throw A e).
Proof. reflexivity. Qed.

Lemma silent_get v k : silent (get v k).
Proof.
  unfold silent. destruct v; cbn; try reflexivity;
    now destruct (String.eqb k "length").
Qed.

Lemma silent_bind {A B : Type} (m : M A) (k : A -> M B) :
  silent m -> (forall a, silent (k a)) -> silent (bind m k).
Proof.
  unfold silent. destruct m as [t [a|e]]; cbn; intros -> H; [|reflexivity].
  specialize (H a). destruct (k a) as [t' o]. exact H.
Qed.

Lemma silent_iterate v : silent (iterate v).
Proof. now destruct v. Qed.

Lemma silent_set o k v : silent (set o k v).
Proof. now destruct o. Qed.

Lemma silent_create_stream settings meta : silent (_createStream settings meta).
Proof.
  unfold _createStream. apply silent_bind; [apply silent_get|].
  intros a. now destruct (truthy a).
Qed.

Lemma silent_gt0 v : silent (gt0 v).
Proof.
  destruct v as [| |b|n|t|f|items|f|c args]; try reflexivity.
  unfold gt0. destruct (String.eqb t ""); [reflexivity|].
  now destruct (NilZero.int_of_string t).
Qed.

(** [_init] calls nobody. *)
Lemma silent_init settings : silent (_init settings).
Proof.
  unfold _init.
  repeat (apply silent_bind; [apply silent_get | intros ?]).
  apply silent_bind.
  - match goal with |- silent (if ?c then _ else _) => destruct c end.
    + apply silent_bind; [apply silent_create_stream | intros; apply silent_ret].
    + apply silent_bind; [apply silent_get | intros streams].
      apply silent_bind.
      * destruct (truthy streams); [|apply silent_ret].
        apply silent_bind; [apply silent_get | intros; apply silent_gt0].
      * intros []; [apply silent_iterate | apply silent_ret].
  - intros l.
    repeat (apply silent_bind; [apply silent_get | intros ?]).
    apply silent_ret.
Qed.

Lemma silent_construct Bunyan fields_of settings :
  silent (construct Bunyan fields_of settings).
Proof.
  unfold construct. apply silent_bind; [apply silent_init | intros options].
  apply silent_bind; [reflexivity | intros; apply silent_ret].
Qed.

Lemma silent_quiet {A : Type} (m : M A) : silent m -> quiet m.
Proof. unfold silent, quiet. now intros ->. Qed.

Lemma quiet_bind {A B : Type} (m : M A) (k : A -> M B) :
  quiet m -> (forall a, quiet (k a)) -> quiet (bind m k).
Proof.
  unfold quiet. destruct m as [t [a|e]]; cbn; intros Ht H; [|exact Ht].
  specialize (H a). destruct (k a) as [t' o]. cbn in *.
  now rewrite existsb_app, Ht, H.
Qed.

Lemma quiet_json this args rest : quiet (json this args rest).
Proof.
  unfold json. apply quiet_bind; [apply silent_quiet, silent_get | intros j].
  destruct (negb (truthy j)); [reflexivity|].
  apply quiet_bind; [|reflexivity].
  destruct (is_string args); reflexivity.
Qed.

Lemma quiet_call_json l args rest : quiet (call_json l args rest).
Proof.
  unfold call_json. destruct (is_logger l); [apply quiet_json | reflexivity].
Qed.

Lemma quiet_hrtime elapsed start : quiet (hrtimeToMs elapsed start).
Proof. unfold hrtimeToMs. now destruct (elapsed start). Qed.

Lemma quiet_setHeader res name v : quiet (setHeader res name v).
Proof.
  unfold setHeader. apply quiet_bind; [apply silent_quiet, silent_get | intros m].
  now destruct m.
Qed.

Lemma quiet_no_context req : quiet (no_context req).
Proof.
  unfold no_context. apply quiet_bind; [apply silent_quiet, silent_get | intros r].
  destruct (negb (truthy r)); [reflexivity|].
  apply quiet_bind; [apply silent_quiet, silent_get | reflexivity].
Qed.

Lemma next_once_bind {A B : Type} (m : M A) (k : A -> M B) :
  quiet m -> (forall a, next_once (k a)) -> next_once (bind m k).
Proof.
  unfold quiet. destruct m as [t [a|e]]; cbn; intros Ht H; [|exact Ht].
  specialize (H a). destruct (k a) as [t' [b|e]]; cbn in *.
  - destruct H as (pre & e & -> & Hpre). exists (t ++ pre), e.
    split; [apply app_assoc|]. now rewrite existsb_app, Ht, Hpre.
  - now rewrite existsb_app, Ht, H.
Qed.

Lemma next_once_next : next_once next.
Proof. now exists [], None. Qed.

Lemma next_once_next_with err : next_once (next_with err).
Proof. now exists [], (Some err). Qed.

Ltac quiet_step :=
  first [ apply silent_quiet, silent_get
        | apply silent_quiet, silent_set
        | apply silent_quiet, silent_construct
        | apply quiet_hrtime
        | apply quiet_setHeader
        | apply quiet_call_json
        | apply quiet_no_context
        | reflexivity ].

(** X6: each of the four hooks keeps its contract with the framework, on
    every request, response and error: if it returns it has called [next]
    exactly once, and last; if it throws it has not called [next]. *)
Theorem hooks_call_next_once
    (Bunyan : value -> outcome value) (fields_of : value -> value)
    (uuid : string) (elapsed : value -> option value) (logger err req res : value) :
  next_once (middleware Bunyan fields_of uuid logger req res) /\
  next_once (middlewareSuccessfulShortResponse elapsed req res) /\
  next_once (middlewareSuccessfulResponse elapsed req res) /\
  next_once (middlewareExceptionResponse elapsed err req res).
Proof.
  repeat split.
  - unfold middleware, _setLogMeta, child.
    do 2 (apply next_once_bind; [quiet_step | intros ?]).
    apply next_once_bind.
    { match goal with |- quiet (if ?c then _ else _) => destruct c end;
        [|reflexivity].
      apply quiet_bind; [quiet_step | reflexivity]. }
    intros id.
    do 5 (apply next_once_bind; [quiet_step | intros ?]).
    apply next_once_bind; [quiet_step | intros _].
    now exists [], None.
  - unfold middlewareSuccessfulShortResponse.
    apply next_once_bind; [quiet_step | intros []]; [apply next_once_next|].
    do 4 (apply next_once_bind; [quiet_step | intros ?]).
    apply next_once_next.
  - unfold middlewareSuccessfulResponse.
    apply next_once_bind; [quiet_step | intros []]; [apply next_once_next|].
    do 3 (apply next_once_bind; [quiet_step | intros ?]).
    match goal with |- next_once (if ?c then _ else _) => destruct c end;
      [apply next_once_next|].
    apply next_once_bind; [quiet_step | intros s].
    destruct (truthy s); [apply next_once_next|].
    do 3 (apply next_once_bind; [quiet_step | intros ?]).
    apply next_once_next.
  - unfold middlewareExceptionResponse.
    apply next_once_bind; [quiet_step | intros []]; [apply next_once_next|].
    do 9 (apply next_once_bind; [quiet_step | intros ?]).
    apply next_once_next_with.
Qed.

(** [json] on a payload of one field, through a logger. *)
Lemma call_json_one_field l j k v name :
  is_logger l = true ->
  get (_settings l) "isJSON" = ret j ->
  String.eqb "level" k = false ->
  call_json l (VObj [(k, v)]) [VStr name] = (emitted l j [(k, v)] name, Ret tt).
Proof.
  intros Hl Hj Hk. unfold call_json. rewrite Hl. unfold json, emitted.
  rewrite Hj, bind_ret. destruct (truthy j); [|reflexivity].
  cbn [negb is_string spread own_props fold_left fst snd obj_set].
  rewrite Hk. reflexivity.
Qed.

Lemma no_context_false req rid start :
  get req "requestId" = ret rid -> truthy rid = true ->
  get req "timeStart" = ret start -> truthy start = true ->
  no_context req = ret false.
Proof.
  intros Hr Hrt Hs Hst. unfold no_context.
  rewrite Hr, bind_ret, Hrt. cbn [negb]. now rewrite Hs, bind_ret, Hst.
Qed.

Lemma bind_emitted {B : Type} (t : list event) (k : unit -> M B) :
  bind (t, Ret tt) k = (t ++ fst (k tt), snd (k tt)).
Proof. unfold bind. now destruct (k tt). Qed.

(** One run of [middleware] on a request with headers. *)
Lemma middleware_run Bunyan fields_of uuid logger c kvs headers h j res :
  lookup "headers" kvs = Some headers ->
  get headers "x-request-id" = ret h ->
  is_logger logger = true ->
  construct Bunyan fields_of logger = ret c ->
  get (_settings logger) "isJSON" = ret j ->
  truthy h = true \/ (exists f, get res "setHeader" = ret (VFun f)) ->
  let id := if truthy h then h else VStr uuid in
  middleware Bunyan fields_of uuid logger (VObj kvs) res
  = ((if truthy h then [] else [ESetHeader "x-request-id" (VStr uuid)])
     ++ incoming j c (started kvs id c) ++ [ENext None],
     Ret (started kvs id c)).
Proof.
  intros Hh Hid Hl Hc Hj Hres id. subst id.
  assert (Hget : get (VObj kvs) "headers" = ret headers)
    by (cbn [get]; now rewrite Hh).
  destruct (child_returns _ _ _ VUndefined _ Hl Hc) as [Hlc Hsc].
  assert (Hrun : forall rid,
    (_setLogMeta logger (VObj [("requestId", rid)]) ;;
     req0 <- set (VObj kvs) "requestId" rid ;;
     c <- child Bunyan fields_of logger
            (VObj [("__meta", VObj [("requestId", rid)]);
                   ("className", VStr "server")]) ;;
     req1 <- set req0 "log" c ;;
     l <- get req1 "log" ;;
     call_json l (VObj [("req", req1)]) [VStr INCOMING_REQUEST_POSTFIX] ;;
     next ;; ret req1)
    = (incoming j c (started kvs rid c) ++ [ENext None], Ret (started kvs rid c))).
  { intros rid. unfold _setLogMeta, child.
    rewrite bind_ret. cbn [set]. rewrite bind_ret, Hc, !bind_ret.
    cbn [set]. rewrite bind_ret. cbn [get]. rewrite lookup_obj_set.
    cbn [or_undefined]. rewrite bind_ret.
    rewrite (call_json_one_field _ j) by (try reflexivity; congruence).
    unfold started, incoming, emitted.
    rewrite bind_emitted. reflexivity. }
  unfold middleware. rewrite Hget, bind_ret, Hid, bind_ret.
  destruct (truthy h) eqn:Th; cbn [negb].
  - rewrite bind_ret. apply Hrun.
  - destruct Hres as [? | [f Hf]]; [discriminate|].
    assert (Hset : setHeader res "x-request-id" (VStr uuid)
                   = ([ESetHeader "x-request-id" (VStr uuid)], Ret tt))
      by (unfold setHeader; now rewrite Hf, bind_ret).
    rewrite Hset. cbn [bind ret app]. rewrite Hrun. reflexivity.
Qed.

(** X7: without an inbound correlation header (absent or empty), on a
    response that has [setHeader], the hook draws an identifier, sets it on the
    response, stores the same value on the request, emits its record through
    the logger [child] returned when [isJSON] is on, and calls [next]. *)
Theorem request_start_draws_id
    (Bunyan : value -> outcome value) (fields_of : value -> value) (uuid f : string)
    (logger c : value) (kvs : list (string * value)) (headers h j res : value) :
  lookup "headers" kvs = Some headers ->
  get headers "x-request-id" = ret h ->
  truthy h = false ->
  get res "setHeader" = ret (VFun f) ->
  is_logger logger = true ->
  child Bunyan fields_of logger (child_options (VStr uuid)) = ret c ->
  get (_settings logger) "isJSON" = ret j ->
  middleware Bunyan fields_of uuid logger (VObj kvs) res
  = (ESetHeader "x-request-id" (VStr uuid)
     :: incoming j c (started kvs (VStr uuid) c) ++ [ENext None],
     Ret (started kvs (VStr uuid) c)).
Proof.
  intros Hh Hid Ht Hres Hl Hc Hj.
  pose proof (middleware_run Bunyan fields_of uuid logger c kvs headers h j res
                Hh Hid Hl Hc Hj (or_intror (ex_intro _ f Hres))) as H.
  cbv zeta in H. rewrite Ht in H. exact H.
Qed.

Lemma request_start_draws_id_witness :
  middleware accepting bare "0b7e" (a_logger false) bare_request
    (server_response VUndefined)
  = ([ESetHeader "x-request-id" (VStr "0b7e"); ENext None],
     Ret (started [("url", VStr "/"); ("method", VStr "GET"); ("headers", VObj [])]
            (VStr "0b7e") (a_child false))).
Proof.
  exact (request_start_draws_id accepting bare "0b7e" "setHeader"
           (a_logger false) (a_child false)
           [("url", VStr "/"); ("method", VStr "GET"); ("headers", VObj [])]
           (VObj []) VUndefined (VBool false) (server_response VUndefined)
           eq_refl eq_refl eq_refl eq_refl eq_refl eq_refl eq_refl).
Defined.

Lemma obj_set_twice l k a a' : obj_set (obj_set l k a) k a' = obj_set l k a'.
Proof.
  induction l as [|[k0 v0] l IH]; simpl.
  - now rewrite String.eqb_refl.
  - destruct (String.eqb k k0) eqn:E; simpl; rewrite E; [reflexivity|].
    now rewrite IH.
Qed.

Lemma obj_set_swap l k1 k2 a b x :
  String.eqb k1 k2 = false -> lookup k1 l = Some x ->
  obj_set (obj_set l k2 b) k1 a = obj_set (obj_set l k1 a) k2 b.
Proof.
  intros Hk. induction l as [|[k0 v0] l IH]; simpl; [discriminate|].
  assert (Hk' : String.eqb k2 k1 = false) by (now rewrite String.eqb_sym).
  destruct (String.eqb k1 k0) eqn:E1.
  - apply String.eqb_eq in E1. subst k0. intros _.
    rewrite Hk'. simpl. now rewrite String.eqb_refl, Hk'.
  - intros Hl. destruct (String.eqb k2 k0) eqn:E2; simpl; rewrite E1, E2.
    + reflexivity.
    + now rewrite IH.
Qed.

(** The request a run left, run again, with the same or with another id. *)
Lemma started_again kvs id prior id' c :
  started (obj_set (obj_set kvs "requestId" id) "log" prior) id' c
  = started kvs id' c.
Proof.
  unfold started. f_equal.
  rewrite (obj_set_swap (obj_set kvs "requestId" id) "requestId" "log" _ _ id)
    by (try reflexivity; apply lookup_obj_set).
  now rewrite !obj_set_twice.
Qed.

(** X8: the request id is stable under a second run of the hook when it came
    with the request: on the request an earlier run left, whatever logger that
    run put on it, the hook leaves the same request id, puts the logger the new
    [child] call returned on the request, and sets no header. *)
Theorem request_start_keeps_inbound_id
    (Bunyan : value -> outcome value) (fields_of : value -> value) (uuid : string)
    (logger c prior : value) (kvs : list (string * value)) (headers h j res : value) :
  lookup "headers" kvs = Some headers ->
  get headers "x-request-id" = ret h ->
  truthy h = true ->
  is_logger logger = true ->
  child Bunyan fields_of logger (child_options h) = ret c ->
  get (_settings logger) "isJSON" = ret j ->
  middleware Bunyan fields_of uuid logger (started kvs h prior) res
  = (incoming j c (started kvs h c) ++ [ENext None], Ret (started kvs h c)).
Proof.
  intros Hh Hid Ht Hl Hc Hj. unfold started at 1.
  pose proof (middleware_run Bunyan fields_of uuid logger c
                (obj_set (obj_set kvs "requestId" h) "log" prior)
                headers h j res) as H.
  cbv zeta in H. rewrite Ht in H.
  rewrite started_again in H. cbn [app] in H. apply H; try assumption.
  - rewrite !lookup_obj_set_other by reflexivity. exact Hh.
  - now left.
Qed.

Lemma request_start_keeps_inbound_id_witness :
  result (middleware accepting bare "0b7e" (a_logger false)
            (started [("headers", VObj [("x-request-id", VStr "abc-123")])]
               (VStr "abc-123") (a_child false))
            VUndefined)
  = Ret (started [("headers", VObj [("x-request-id", VStr "abc-123")])]
           (VStr "abc-123") (a_child false)).
Proof.
  exact (f_equal snd
           (request_start_keeps_inbound_id accepting bare "0b7e"
              (a_logger false) (a_child false) (a_child false)
              [("headers", VObj [("x-request-id", VStr "abc-123")])]
              (VObj [("x-request-id", VStr "abc-123")]) (VStr "abc-123")
              (VBool false) VUndefined
              eq_refl eq_refl eq_refl eq_refl eq_refl eq_refl)).
Defined.

(** X9: the request id is not stable under a second run when the hook drew
    it: the header is read again, found absent, and the request leaves with
    the identifier drawn last, which is also the one set on the response. *)
Theorem request_start_redraws_id
    (Bunyan : value -> outcome value) (fields_of : value -> value)
    (first second f : string) (logger c prior : value)
    (kvs : list (string * value)) (headers h j res : value) :
  lookup "headers" kvs = Some headers ->
  get headers "x-request-id" = ret h ->
  truthy h = false ->
  get res "setHeader" = ret (VFun f) ->
  is_logger logger = true ->
  child Bunyan fields_of logger (child_options (VStr second)) = ret c ->
  get (_settings logger) "isJSON" = ret j ->
  middleware Bunyan fields_of second logger (started kvs (VStr first) prior) res
  = (ESetHeader "x-request-id" (VStr second)
     :: incoming j c (started kvs (VStr second) c) ++ [ENext None],
     Ret (started kvs (VStr second) c)).
Proof.
  intros Hh Hid Ht Hres Hl Hc Hj. unfold started at 1.
  pose proof (middleware_run Bunyan fields_of second logger c
                (obj_set (obj_set kvs "requestId" (VStr first)) "log" prior)
                headers h j res) as H.
  cbv zeta in H. rewrite Ht in H.
  rewrite started_again in H. apply H; try assumption.
  - rewrite !lookup_obj_set_other by reflexivity. exact Hh.
  - right. now exists f.
Qed.

Lemma request_start_redraws_id_witness :
  result (middleware accepting bare "second" (a_logger false)
            (started [("headers", VObj [])] (VStr "first") (a_child false))
            (server_response VUndefined))
  = Ret (started [("headers", VObj [])] (VStr "second") (a_child false)).
Proof.
  exact (f_equal snd
           (request_start_redraws_id accepting bare "first" "second" "setHeader"
              (a_logger false) (a_child false) (a_child false)
              [("headers", VObj [])] (VObj []) VUndefined (VBool false)
              (server_response VUndefined)
              eq_refl eq_refl eq_refl eq_refl eq_refl eq_refl eq_refl)).
Defined.

(** X10: on a request in flight, with a timer that answers and a logger
    on the request, the error hook emits (when [isJSON] is on) one record
    tagged [EXCEPTION_RESPONSE] with the error's name, its code ([statusCode],
    or 400 when that is missing or falsy) and its message ([message.msg] when
    truthy, else [message]) beside the request id and the time, and then hands
    the error itself to [next]. *)
Theorem exception_hook_logs_and_forwards
    (elapsed : value -> option value)
    (err req res rid start ms message msg statusCode name l j : value) :
  get req "requestId" = ret rid -> truthy rid = true ->
  get req "timeStart" = ret start -> truthy start = true ->
  elapsed start = Some ms ->
  get err "message" = ret message -> get message "msg" = ret msg ->
  get err "statusCode" = ret statusCode -> get err "name" = ret name ->
  get req "log" = ret l -> is_logger l = true ->
  get (_settings l) "isJSON" = ret j ->
  middlewareExceptionResponse elapsed err req res
  = (emitted l j
       [("secureJsonData",
         VObj [("error",
                VObj [("code", if truthy statusCode then statusCode else VNum 400);
                      ("name", name);
                      ("message", if truthy msg then msg else message)]);
               ("meta", VObj [("requestId", rid); ("time", ms)])])]
       EXCEPTION_RESPONSE_POSTFIX
     ++ [ENext (Some err)],
     Ret tt).
Proof.
  intros Hr Hrt Hs Hst He Hm Hmm Hc Hn Hl Hlog Hj.
  unfold middlewareExceptionResponse, hrtimeToMs.
  rewrite (no_context_false _ _ _ Hr Hrt Hs Hst), bind_ret.
  rewrite Hs, bind_ret, He, bind_ret, Hm, bind_ret, Hmm, bind_ret.
  rewrite Hc, bind_ret, Hl, bind_ret, Hn, bind_ret, Hr, bind_ret.
  rewrite (call_json_one_field _ j) by (try reflexivity; assumption).
  rewrite bind_emitted. unfold or_else.
  now destruct (truthy statusCode), (truthy msg).
Qed.

Lemma exception_hook_logs_and_forwards_witness :
  middlewareExceptionResponse five_ms
    (VObj [("name", VStr "Error"); ("message", VObj [("msg", VStr "bad input")])])
    request_in_flight (a_response VUndefined)
  = ([EInfo (a_logger true)
        (VObj [("secureJsonData",
                VObj [("error", VObj [("code", VNum 400); ("name", VStr "Error");
                                      ("message", VStr "bad input")]);
                      ("meta", VObj [("requestId", VStr "r1"); ("time", VNum 5)])]);
               ("level", VNum 70)])
        (VStr "EXCEPTION_RESPONSE");
      ENext (Some (VObj [("name", VStr "Error");
                         ("message", VObj [("msg", VStr "bad input")])]))],
     Ret tt).
Proof.
  exact (exception_hook_logs_and_forwards five_ms
           (VObj [("name", VStr "Error"); ("message", VObj [("msg", VStr "bad input")])])
           request_in_flight (a_response VUndefined)
           (VStr "r1") (VArr [VNum 1; VNum 0]) (VNum 5)
           (VObj [("msg", VStr "bad input")]) (VStr "bad input") VUndefined
           (VStr "Error") (a_logger true) (VBool true)
           eq_refl eq_refl eq_refl eq_refl eq_refl eq_refl eq_refl eq_refl eq_refl
           eq_refl eq_refl eq_refl).
Defined.

(** X11: an error without a message ([message] undefined or null) makes the
    error hook throw on a request in flight, when it reads [message.msg]:
    nothing is emitted and the error is not handed to [next]. *)
Theorem exception_hook_throws_without_message
    (elapsed : value -> option value) (err req res rid start message : value) :
  get req "requestId" = ret rid -> truthy rid = true ->
  get req "timeStart" = ret start -> truthy start = true ->
  get err "message" = ret message -> is_nullish message = true ->
  middlewareExceptionResponse elapsed err req res = ([], Threw TypeError).
Proof.
  intros Hr Hrt Hs Hst Hm Hnull.
  unfold middlewareExceptionResponse, hrtimeToMs.
  rewrite (no_context_false _ _ _ Hr Hrt Hs Hst), bind_ret, Hs, bind_ret.
  destruct (elapsed start); [|reflexivity].
  rewrite bind_ret, Hm, bind_ret.
  destruct message; try discriminate; reflexivity.
Qed.

Lemma exception_hook_throws_without_message_witness :
  middlewareExceptionResponse five_ms (VObj [("statusCode", VNum 500)])
    request_in_flight (a_response VUndefined)
  = ([], Threw TypeError).
Proof.
  apply (exception_hook_throws_without_message five_ms
           (VObj [("statusCode", VNum 500)]) request_in_flight (a_response VUndefined)
           (VStr "r1") (VArr [VNum 1; VNum 0]) VUndefined); reflexivity.
Defined.

(** X12: on a request in flight, with a timer that answers and a logger on
    the request, a truthy result without a truthy [stream] is emitted (when
    [isJSON] is on) in one record tagged [SUCCESSFUL_RESPONSE], with code 200,
    the result as it is, the request id and the time; then [next] is called. *)
Theorem success_hook_logs_result
    (elapsed : value -> option value)
    (req res rid start ms r stream l j : value) :
  get req "requestId" = ret rid -> truthy rid = true ->
  get req "timeStart" = ret start -> truthy start = true ->
  elapsed start = Some ms ->
  get res "result" = ret r -> truthy r = true ->
  get r "stream" = ret stream -> truthy stream = false ->
  get req "log" = ret l -> is_logger l = true ->
  get (_settings l) "isJSON" = ret j ->
  middlewareSuccessfulResponse elapsed req res
  = (emitted l j
       [("secureJsonData",
         VObj [("code", VNum 200); ("result", r);
               ("meta", VObj [("requestId", rid); ("time", ms)])])]
       SUCCESSFUL_RESPONSE_POSTFIX
     ++ [ENext None],
     Ret tt).
Proof.
  intros Hr Hrt Hs Hst He Hres Hrt' Hstr Hsf Hl Hlog Hj.
  unfold middlewareSuccessfulResponse, hrtimeToMs.
  rewrite (no_context_false _ _ _ Hr Hrt Hs Hst), bind_ret.
  rewrite Hs, bind_ret, He, bind_ret, Hres, bind_ret, Hrt'. cbn [negb andb].
  rewrite Hstr, bind_ret, Hsf, Hl, bind_ret, Hr, bind_ret.
  rewrite (call_json_one_field _ j) by (try reflexivity; assumption).
  now rewrite bind_emitted.
Qed.

Lemma success_hook_logs_result_witness :
  middlewareSuccessfulResponse five_ms request_in_flight
    (a_response (VObj [("items", VArr [])]))
  = ([EInfo (a_logger true)
        (VObj [("secureJsonData",
                VObj [("code", VNum 200); ("result", VObj [("items", VArr [])]);
                      ("meta", VObj [("requestId", VStr "r1"); ("time", VNum 5)])]);
               ("level", VNum 70)])
        (VStr "SUCCESSFUL_RESPONSE");
      ENext None],
     Ret tt).
Proof.
  exact (success_hook_logs_result five_ms request_in_flight
           (a_response (VObj [("items", VArr [])]))
           (VStr "r1") (VArr [VNum 1; VNum 0]) (VNum 5) (VObj [("items", VArr [])])
           VUndefined (a_logger true) (VBool true)
           eq_refl eq_refl eq_refl eq_refl eq_refl eq_refl eq_refl eq_refl eq_refl
           eq_refl eq_refl eq_refl).
Defined.

(** X13: a result that is falsy and not [null] (undefined, [false], 0, the
    empty string) is not logged: on a request in flight, the timer having
    answered, the success hook calls [next] and nothing else, even with
    [isJSON] on. *)
Theorem success_hook_skips_falsy_result
    (elapsed : value -> option value) (req res rid start ms r : value) :
  get req "requestId" = ret rid -> truthy rid = true ->
  get req "timeStart" = ret start -> truthy start = true ->
  elapsed start = Some ms ->
  get res "result" = ret r -> truthy r = false -> is_null r = false ->
  middlewareSuccessfulResponse elapsed req res = ([ENext None], Ret tt).
Proof.
  intros Hr Hrt Hs Hst He Hres Hf Hn.
  unfold middlewareSuccessfulResponse, hrtimeToMs.
  rewrite (no_context_false _ _ _ Hr Hrt Hs Hst), bind_ret.
  rewrite Hs, bind_ret, He, bind_ret, Hres, bind_ret, Hf, Hn. reflexivity.
Qed.

Lemma success_hook_skips_falsy_result_witness :
  middlewareSuccessfulResponse five_ms request_in_flight (a_response (VNum 0))
  = ([ENext None], Ret tt).
Proof.
  apply (success_hook_skips_falsy_result five_ms request_in_flight
           (a_response (VNum 0)) (VStr "r1") (VArr [VNum 1; VNum 0]) (VNum 5)
           (VNum 0)); reflexivity.
Defined.

(** X14: the short success hook never looks at the response: on a request
    in flight, with a timer that answers and a logger on the request, it emits
    (when [isJSON] is on) one record tagged [SUCCESSFUL_RESPONSE] with code 200
    and the time alone, no result and no request id, whatever the response
    holds, a stream or [null] included; then [next] is called. *)
Theorem short_hook_logs_time_only
    (elapsed : value -> option value) (req res rid start ms l j : value) :
  get req "requestId" = ret rid -> truthy rid = true ->
  get req "timeStart" = ret start -> truthy start = true ->
  elapsed start = Some ms ->
  get req "log" = ret l -> is_logger l = true ->
  get (_settings l) "isJSON" = ret j ->
  middlewareSuccessfulShortResponse elapsed req res
  = (emitted l j
       [("secureJsonData",
         VObj [("code", VNum 200); ("meta", VObj [("time", ms)])])]
       SUCCESSFUL_RESPONSE_POSTFIX
     ++ [ENext None],
     Ret tt).
Proof.
  intros Hr Hrt Hs Hst He Hl Hlog Hj.
  unfold middlewareSuccessfulShortResponse, hrtimeToMs.
  rewrite (no_context_false _ _ _ Hr Hrt Hs Hst), bind_ret.
  rewrite Hs, bind_ret, He, bind_ret, Hl, bind_ret.
  rewrite (call_json_one_field _ j) by (try reflexivity; assumption).
  now rewrite bind_emitted.
Qed.

Lemma short_hook_logs_time_only_witness :
  middlewareSuccessfulShortResponse five_ms request_in_flight (a_response VNull)
  = ([EInfo (a_logger true)
        (VObj [("secureJsonData",
                VObj [("code", VNum 200); ("meta", VObj [("time", VNum 5)])]);
               ("level", VNum 70)])
        (VStr "SUCCESSFUL_RESPONSE");
      ENext None],
     Ret tt).
Proof.
  exact (short_hook_logs_time_only five_ms request_in_flight (a_response VNull)
           (VStr "r1") (VArr [VNum 1; VNum 0]) (VNum 5) (a_logger true) (VBool true)
           eq_refl eq_refl eq_refl eq_refl eq_refl eq_refl eq_refl eq_refl).
Defined.

(** *** Construction *)

(** [_init] on an object, around the list of bindings it builds. *)
Lemma init_result kvs o :
  _init (VObj kvs) = ret o -> exists bindings, o = options_with kvs bindings.
Proof.
  unfold _init. cbn [get]. rewrite !bind_ret. intros H.
  apply bind_ret_inv in H as (bindings & _ & H).
  rewrite !bind_ret in H. injection H as <-. now exists bindings.
Qed.

Lemma init_returns kvs :
  streams_usable kvs = true -> exists o, _init (VObj kvs) = ret o.
Proof.
  unfold streams_usable, prop. intros H. unfold _init, _createStream. cbn [get].
  rewrite ?bind_ret.
  destruct (truthy (or_undefined (lookup "isMapper" kvs))); cbn [orb] in H.
  - destruct (truthy (or_undefined (lookup "isTrim" kvs)));
      rewrite ?bind_ret; eexists; reflexivity.
  - destruct (or_undefined (lookup "streams" kvs)) as [| |b|n|t|f|items|f|c args];
      cbn in H; try discriminate;
      try (cbn [truthy]; rewrite ?bind_ret; eexists; reflexivity).
    + destruct b; [discriminate|].
      cbn [truthy]. rewrite ?bind_ret. eexists. reflexivity.
    + cbn [truthy]. destruct (n =? 0)%Z; [|discriminate].
      cbn [negb]. rewrite ?bind_ret. eexists. reflexivity.
    + cbn [truthy]. destruct (String.eqb t ""); cbn [negb].
      * rewrite ?bind_ret. eexists. reflexivity.
      * cbn [get String.eqb Ascii.eqb Bool.eqb]. rewrite ?bind_ret.
        unfold gt0. rewrite ?bind_ret.
        match goal with |- context [(0 <? ?n)%Z] => destruct (0 <? n)%Z end;
          cbn [iterate]; rewrite ?bind_ret; eexists; reflexivity.
    + cbn [truthy get String.eqb Ascii.eqb Bool.eqb]. rewrite ?bind_ret.
      unfold gt0. rewrite ?bind_ret.
      match goal with |- context [(0 <? ?n)%Z] => destruct (0 <? n)%Z end;
        cbn [iterate]; rewrite ?bind_ret; eexists; reflexivity.
Qed.

Lemma lookup_none_iff k (l : list (string * value)) :
  lookup k l = None <-> ~ In k (map fst l).
Proof.
  induction l as [|[k0 v0] l IH]; simpl; [tauto|].
  destruct (String.eqb k k0) eqn:E.
  - apply String.eqb_eq in E. subst k0. split; [discriminate | tauto].
  - apply String.eqb_neq in E. rewrite IH. split; [intros H [?|?] | ]; intuition.
Qed.

(** A copy onto an object: the source wins on the names it has. *)
Lemma lookup_fold_put k l : forall acc,
  NoDup (map fst l) ->
  lookup k (fold_left put l acc)
  = match lookup k l with Some v => Some v | None => lookup k acc end.
Proof.
  induction l as [|[k0 v0] l IH]; intros acc Hn; [reflexivity|].
  simpl in Hn. inversion Hn as [|? ? Hk0 Hn']; subst.
  cbn [fold_left]. rewrite (IH _ Hn'). unfold put. cbn [fst snd lookup].
  destruct (String.eqb k k0) eqn:E.
  - apply String.eqb_eq in E. subst k0.
    apply lookup_none_iff in Hk0. rewrite Hk0. apply lookup_obj_set.
  - destruct (lookup k l); [reflexivity|]. now apply lookup_obj_set_other.
Qed.

(** X15: in the registry [_init] hands to the engine a serializer supplied
    by the caller replaces the built-in one of the same name, the caller's
    other serializers are added, and the built-in ones it did not name stay;
    without caller serializers the registry is the three built-in ones. *)
Theorem init_caller_serializers_win (kvs : list (string * value)) (o : value) :
  _init (VObj kvs) = ret o ->
  exists sers,
    get o "serializers" = ret sers /\
    (forall own, prop kvs "serializers" = VObj own -> NoDup (map fst own) ->
       forall k, get sers k
                 = match lookup k own with
                   | Some f => ret f
                   | None => get Serializers k
                   end) /\
    (truthy (prop kvs "serializers") = false -> sers = Serializers).
Proof.
  intros H. destruct (init_result _ _ H) as [bindings ->].
  exists (registry kvs). split; [reflexivity|]. unfold registry. split.
  - intros own Hown Hn k. rewrite Hown. cbn [truthy assign own_props Serializers get].
    change (fun acc kv => obj_set acc (fst kv) (snd kv)) with put.
    rewrite (lookup_fold_put k own _ Hn).
    now destruct (lookup k own).
  - now intros ->.
Qed.

Lemma init_caller_serializers_win_witness :
  exists sers,
    get (options_with [("serializers", VObj [("req", VFun "mine"); ("user", VFun "u")])]
           [default_binding [("serializers",
                              VObj [("req", VFun "mine"); ("user", VFun "u")])]])
        "serializers" = ret sers /\
    get sers "req" = ret (VFun "mine") /\
    get sers "header" = ret (VFun "header").
Proof.
  destruct (init_caller_serializers_win
              [("serializers", VObj [("req", VFun "mine"); ("user", VFun "u")])]
              _ eq_refl) as (sers & Hs & Hown & _).
  exists sers. split; [exact Hs|].
  assert (Hn : NoDup (map fst [("req", VFun "mine"); ("user", VFun "u")])).
  { repeat constructor; simpl; intuition discriminate. }
  split; [exact (Hown _ eq_refl Hn "req") | exact (Hown _ eq_refl Hn "header")].
Defined.

(** X16: on settings whose [streams] can be used, [_init] returns options
    of four fields, [name], [type], [streams], [serializers], where a name or
    a type that is missing or empty is the default [example]. *)
Theorem init_returns_options (kvs : list (string * value)) :
  streams_usable kvs = true ->
  exists bindings,
    _init (VObj kvs) = ret (options_with kvs bindings) /\
    (truthy (prop kvs "name") = false ->
     get (options_with kvs bindings) "name" = ret (VStr DEFAULT_NAME_AND_TYPE)) /\
    (truthy (prop kvs "type") = false ->
     get (options_with kvs bindings) "type" = ret (VStr DEFAULT_NAME_AND_TYPE)).
Proof.
  intros H. destruct (init_returns _ H) as [o Ho].
  destruct (init_result _ _ Ho) as [bindings ->].
  exists bindings. split; [exact Ho|].
  unfold options_with, or_else. cbn [get lookup String.eqb Ascii.eqb Bool.eqb or_undefined].
  split; now intros ->.
Qed.

Lemma init_returns_options_witness :
  exists bindings,
    _init (VObj [("name", VStr ""); ("type", VStr "api")])
    = ret (options_with [("name", VStr ""); ("type", VStr "api")] bindings) /\
    get (options_with [("name", VStr ""); ("type", VStr "api")] bindings) "name"
    = ret (VStr "example").
Proof.
  destruct (init_returns_options [("name", VStr ""); ("type", VStr "api")] eq_refl)
    as (bindings & Hi & Hname & _).
  exists bindings. split; [exact Hi | exact (Hname eq_refl)].
Defined.

(** X17: along a line of descent of any length, every logger the
    constructor returns is a logger that keeps the settings of the first,
    whatever options the children are given: [_settings], which [json] reads
    for [isJSON], is the facade's. *)
Theorem descendants_keep_settings
    (Bunyan : value -> outcome value) (fields_of : value -> value)
    (options : list value) : forall l c,
  is_logger l = true ->
  descend Bunyan fields_of l options = ret c ->
  is_logger c = true /\ _settings c = _settings l.
Proof.
  induction options as [|o options IH]; intros l c Hl H.
  - injection H as <-. now split.
  - cbn [descend] in H. apply bind_ret_inv in H as (d & Hd & H).
    destruct (child_returns _ _ _ _ _ Hl Hd) as [Hld Hsd].
    destruct (IH d c Hld H) as [Hlc Hsc]. split; congruence.
Qed.

Lemma descendants_keep_settings_witness :
  exists c,
    descend accepting bare (a_logger false)
      [VObj [("className", VStr "server")]; VObj [("className", VStr "db")]]
    = ret c /\
    is_logger c = true /\ _settings c = _settings (a_logger false).
Proof.
  exists (a_child false). split; [reflexivity|].
  exact (descendants_keep_settings accepting bare
           [VObj [("className", VStr "server")]; VObj [("className", VStr "db")]]
           (a_logger false) (a_child false) eq_refl eq_refl).
Defined.

(** X18: the logger [create] returns keeps the settings it was given (those
    of the logger, when it was given one); [create] throws a [TypeError] on
    [undefined] and on [null], whatever the engine. *)
Theorem create_keeps_settings
    (Bunyan : value -> outcome value) (fields_of : value -> value)
    (set_level : value -> value -> outcome unit) (settings logger : value) :
  (create Bunyan fields_of set_level settings = ret logger ->
   is_logger logger = true /\
   _settings logger = if is_logger settings then _settings settings else settings) /\
  create Bunyan fields_of set_level VUndefined = throw TypeError /\
  create Bunyan fields_of set_level VNull = throw TypeError.
Proof.
  split; [|now split].
  intros H. unfold create in H.
  apply bind_ret_inv in H as (l & Hl & H).
  apply bind_ret_inv in H as (level & _ & H).
  apply bind_ret_inv in H as (u & _ & H).
  injection H as <-.
  apply construct_returns in Hl as [state ->]. now split.
Qed.

Lemma create_keeps_settings_witness :
  exists logger,
    create accepting bare any_level
      (VObj [("isJSON", VBool true); ("streams", VArr [user_binding])])
    = ret logger /\
    _settings logger = VObj [("isJSON", VBool true); ("streams", VArr [user_binding])].
Proof.
  eexists. split; [reflexivity|].
  exact (proj2 (proj1 (create_keeps_settings accepting bare any_level
                  (VObj [("isJSON", VBool true); ("streams", VArr [user_binding])])
                  _) eq_refl)).
Defined.

(** *** [log] *)

(** X19: [log] leaves on the engine, when [isJSON] is on, one record whose
    [stringData] holds one pair, the first rest argument as a name and the
    second as its value, with [level = 70] and the first argument of the call
    as the message; rest arguments after the second are read by nobody; with
    [isJSON] off it leaves nothing.  The first rest argument is one whose text
    [to_str] has: a number too large for it, or an object with a [toString]
    of its own, is left out. *)
Theorem log_emits_one_pair (this a : value) (rest : list value) (j : value) :
  get (_settings this) "isJSON" = ret j ->
  plain_text (arg 0 rest) = true ->
  log this a rest
  = ((if truthy j
      then [EInfo this
              (VObj [("stringData", VObj [(to_str (arg 0 rest), arg 1 rest)]);
                     ("level", VNum 70)])
              a]
      else []),
     Ret tt) /\
  log this a rest = log this a (firstn 2 rest).
Proof.
  intros Hj _. split.
  - unfold log. cbn [isArray]. unfold json. rewrite Hj, bind_ret.
    destruct (truthy j); reflexivity.
  - unfold log. cbn [isArray]. do 2 f_equal.
    destruct rest as [|x [|y rest]]; reflexivity.
Qed.

Lemma log_emits_one_pair_witness :
  log (a_logger true) (VStr "CACHE_MISS") [VStr "key"; VNum 7; VStr "dropped"]
  = ([EInfo (a_logger true)
        (VObj [("stringData", VObj [("key", VNum 7)]); ("level", VNum 70)])
        (VStr "CACHE_MISS")],
     Ret tt).
Proof.
  exact (proj1 (log_emits_one_pair (a_logger true) (VStr "CACHE_MISS")
                  [VStr "key"; VNum 7; VStr "dropped"] (VBool true) eq_refl eq_refl)).
Defined.

(** *** The redaction passes at their edges *)

Lemma pass_without_occurrence p a :
  forallb plain p = true -> Cookie.occurs p a = false ->
  Cookie.replace_all p a = a.
Proof.
  intros Hp H.
  pose proof (CookieFacts.replace_all_no_occurrence p a [] Hp H (or_introl eq_refl))
    as E.
  now rewrite app_nil_r, CookieFacts.replace_all_nil, app_nil_r in E.
Qed.

(** X20: a cookie in which neither [sid=] nor [rm=] occurs leaves the
    redactor as it came. *)
Theorem redact_without_keys_is_identity (s : string) :
  Cookie.occurs Cookie.SID (Cookie.of_string s) = false ->
  Cookie.occurs Cookie.RM (Cookie.of_string s) = false ->
  Cookie.redact_cookie s = s.
Proof.
  intros Hs Hr. unfold Cookie.redact_cookie, Cookie.redact.
  rewrite (pass_without_occurrence Cookie.SID) by (try reflexivity; exact Hs).
  rewrite (pass_without_occurrence Cookie.RM) by (try reflexivity; exact Hr).
  apply string_of_list_ascii_of_string.
Qed.

Lemma redact_without_keys_is_identity_witness :
  Cookie.redact_cookie "theme=dark; lang=en" = "theme=dark; lang=en".
Proof.
  apply (redact_without_keys_is_identity "theme=dark; lang=en"); reflexivity.
Defined.

Lemma line_terminator_is_no_semicolon l :
  Cookie.is_lt l = true -> Ascii.eqb l Cookie.SEMI = false.
Proof.
  intros H. destruct (Ascii.eqb l Cookie.SEMI) eqn:E; [|reflexivity].
  apply Ascii.eqb_eq in E. subst l. discriminate.
Qed.

Lemma pass_stops_at_line_terminator p a l rest :
  forallb plain p = true -> forallb clean a = true -> Cookie.is_lt l = true ->
  Cookie.replace_all p (a ++ l :: rest) = a ++ l :: Cookie.replace_all p rest.
Proof.
  intros Hp Ha Hl.
  assert (Hnone : forall b, forallb clean b = true ->
                            Cookie.match_tail (b ++ l :: rest) = None).
  { intros b Hb. rewrite CookieFacts.match_tail_clean_app by exact Hb.
    cbn [Cookie.match_tail]. now rewrite (line_terminator_is_no_semicolon _ Hl), Hl. }
  induction a as [|x a IH].
  - cbn [app]. rewrite CookieFacts.replace_all_none; [reflexivity|].
    apply CookieFacts.tail_none_match_none; [exact Hp | exact (Hnone [] eq_refl)].
  - assert (Hx : forallb clean a = true)
      by (simpl in Ha; now apply andb_true_iff in Ha).
    change ((x :: a) ++ l :: rest) with (x :: (a ++ l :: rest)).
    rewrite CookieFacts.replace_all_none.
    + cbn [app]. now rewrite (IH Hx).
    + apply CookieFacts.tail_none_match_none; [exact Hp|].
      exact (Hnone (x :: a) Ha).
Qed.

(** X21: the redactor never reaches over a line terminator: text that holds
    no [;] up to the first line feed or carriage return stays as it is, a
    value of [sid] or [rm] in it included, and redaction goes on after the
    terminator. *)
Theorem redact_stops_at_line_terminator (a : Cookie.chars) (l : ascii) (rest : Cookie.chars) :
  forallb clean a = true -> Cookie.is_lt l = true ->
  Cookie.redact (a ++ l :: rest) = a ++ l :: Cookie.redact rest.
Proof.
  intros Ha Hl. unfold Cookie.redact.
  rewrite (pass_stops_at_line_terminator Cookie.SID) by (try reflexivity; assumption).
  now rewrite (pass_stops_at_line_terminator Cookie.RM) by (try reflexivity; assumption).
Qed.

Lemma redact_stops_at_line_terminator_witness :
  Cookie.redact (Cookie.of_string "sid=abc" ++ Cookie.LF :: Cookie.of_string "rm=1; x=2")
  = Cookie.of_string "sid=abc" ++ Cookie.LF :: Cookie.of_string "rm=***; x=2".
Proof.
  exact (redact_stops_at_line_terminator (Cookie.of_string "sid=abc") Cookie.LF
           (Cookie.of_string "rm=1; x=2") eq_refl eq_refl).
Defined.

(** X22: an empty value of [sid] costs the next pair: the expression asks
    for one character of value, takes the [;] for it, and masks everything up
    to the following [;]. *)
Theorem redact_empty_sid_takes_next_pair (v rest : Cookie.chars) :
  forallb clean v = true ->
  Cookie.redact (Cookie.SID ++ Cookie.SEMI :: v ++ Cookie.SEMI :: rest)
  = Cookie.SID ++ Cookie.MASK ++ Cookie.SEMI :: Cookie.redact rest.
Proof.
  intros Hv. unfold Cookie.redact.
  rewrite (CookieFacts.replace_all_some Cookie.SID _ [Cookie.SEMI] rest).
  - replace (Cookie.SID ++ Cookie.MASK ++ [Cookie.SEMI]
               ++ Cookie.replace_all Cookie.SID rest)
      with ((Cookie.SID ++ Cookie.MASK ++ [Cookie.SEMI])
              ++ Cookie.replace_all Cookie.SID rest)
      by now rewrite <- !app_assoc.
    rewrite (CookieFacts.replace_all_copy "r"%char (Cookie.of_string "m="))
      by reflexivity.
    now rewrite <- !app_assoc.
  - unfold Cookie.match_at. rewrite CookieFacts.strip_prefix_app.
    cbn [Cookie.match_body]. change (Cookie.is_lt Cookie.SEMI) with false.
    cbn iota. rewrite CookieFacts.match_tail_clean_app by exact Hv. reflexivity.
Qed.

Lemma redact_empty_sid_takes_next_pair_witness :
  Cookie.redact (Cookie.SID ++ Cookie.SEMI :: Cookie.of_string " a=1"
                   ++ Cookie.SEMI :: Cookie.of_string " b=2")
  = Cookie.SID ++ Cookie.MASK ++ Cookie.SEMI :: Cookie.of_string " b=2".
Proof.
  exact (redact_empty_sid_takes_next_pair (Cookie.of_string " a=1")
           (Cookie.of_string " b=2") eq_refl).
Defined.

End Properties.
